(** * Badminton signup and waitlist: the roster logic of [app.py]

    The two worksheets of the Google Sheet are modelled as lists of rows
    (the rows under the header line, in sheet order).  Every operation of
    [app.py] that reads or writes the sheet becomes a function on that state.
    Cells are kept as the strings the sheet holds; the session capacity is the
    integer that [read_sessions] normalises it to, and the cutoff is the
    instant that [datetime.fromisoformat] parses (in seconds), [None] for an
    empty cell.  Values produced by the environment ([uuid4], [utcnow]) are
    arguments of the operations that use them. *)

From Stdlib Require Import ZArith Lia Ascii String OrdersEx.
From stdpp Require Import base decidable option list strings gmap sorting.

Local Open Scope string_scope.
Local Open Scope Z_scope.
Local Open Scope list_scope.

(** ** Rows of the two worksheets *)

(** signups: id, session_id, name, role, added_by, created_utc, status *)
Record signup := Signup {
  row_id : string;
  session_id : string;
  name : string;
  role : string;
  added_by : string;
  created_utc : string;
  status : string
}.

(** sessions: id, session_date, capacity, cutoff_utc, title, notes *)
Record session := Session {
  sess_id : string;
  session_date : string;
  capacity : Z;
  cutoff_utc : option Z;
  title : string;
  notes : string
}.

Record sheet := Sheet {
  ws_sessions : list session;
  ws_signups : list signup
}.

#[global] Instance signup_eq_dec : EqDecision signup.
Proof. solve_decision. Defined.

(** Writing the status cell of a row. *)
Definition set_status (v : string) (r : signup) : signup :=
  Signup (row_id r) (session_id r) (name r) (role r) (added_by r)
         (created_utc r) v.

(** ** Python helpers *)

(** [list.sort(key=...)] is stable: among rows with equal keys the earlier
    one stays first.  [le x y] is [key x <= key y]. *)
Section py_sort.
Context {A : Type} (le : A → A → bool).

Fixpoint insert_by (x : A) (l : list A) : list A :=
  match l with
  | [] => [x]
  | y :: l' => if le x y then x :: y :: l' else y :: insert_by x l'
  end.

Definition list_sort (l : list A) : list A := foldr insert_by [] l.

Definition leR : relation A := λ x y, le x y = true.
End py_sort.

(** [enumerate(l, start)] *)
Fixpoint enumerate {A : Type} (start : nat) (l : list A) : list (nat * A) :=
  match l with
  | [] => []
  | x :: l' => (start, x) :: enumerate (S start) l'
  end.

(** Sort keys are pairs [(tier, created_utc)], compared as Python compares
    tuples: first components, then the strings, lexicographically. *)
Definition key_le (k1 k2 : nat * string) : bool :=
  (k1.1 <? k2.1)%nat || ((k1.1 =? k2.1)%nat && String.leb k1.2 k2.2).

(** [str.strip()] and [str.lower()] are Python's own functions, aware of
    all of Unicode's white space and letter cases.  The operations that call
    them take the pair as a parameter, so what is proved of them holds for
    Python's functions. *)
Record str_ops := StrOps {
  strip : string → string;
  lower : string → string
}.

(** The two functions on ASCII text; the examples run with these. *)
Definition ascii_space (c : ascii) : bool :=
  let n := nat_of_ascii c in
  ((9 <=? n) && (n <=? 13) || (28 <=? n) && (n <=? 32))%nat.

Definition ascii_lower_char (c : ascii) : ascii :=
  let n := nat_of_ascii c in
  if ((65 <=? n) && (n <=? 90))%nat then ascii_of_nat (n + 32) else c.

Fixpoint ascii_lstrip (s : string) : string :=
  match s with
  | String c s' => if ascii_space c then ascii_lstrip s' else s
  | EmptyString => EmptyString
  end.

Definition ascii_strip (s : string) : string :=
  String.rev (ascii_lstrip (String.rev (ascii_lstrip s))).

Fixpoint ascii_lower (s : string) : string :=
  match s with
  | String c s' => String (ascii_lower_char c) (ascii_lower s')
  | EmptyString => EmptyString
  end.

Definition ascii_ops : str_ops := StrOps ascii_strip ascii_lower.

(** ** Data access *)

(** [read_sessions]: all session rows, newest first by date (a stable sort
    with [reverse=True] keeps rows of equal date in sheet order). *)
Definition date_ge (a b : session) : bool :=
  String.leb (session_date b) (session_date a).

Definition read_sessions (st : sheet) : list session :=
  list_sort date_ge (ws_sessions st).

Fixpoint find_session (sid : string) (l : list session) : option session :=
  match l with
  | [] => None
  | s :: l' => if String.eqb (sess_id s) sid then Some s else find_session sid l'
  end.

Definition get_session_by_id (st : sheet) (sid : string) : option session :=
  find_session sid (read_sessions st).

(** [read_signups]: the rows of the session that are not removed. *)
Definition active_in (sid : string) (r : signup) : Prop :=
  session_id r = sid ∧ status r ≠ "removed".

#[global] Instance active_in_dec sid r : Decision (active_in sid r).
Proof. unfold active_in. apply _. Defined.

Definition read_signups (ws : list signup) (sid : string) : list signup :=
  filter (active_in sid) ws.

(** [ws_signups.update_cell(r_i, status_column, v)]: sheet row [r_i] counts
    from 1 with the header line, so it is entry [r_i - 2] of the rows. *)
Definition update_cell_status (r_i : nat) (v : string) (ws : list signup)
  : list signup :=
  alter (set_status v) (r_i - 2)%nat ws.

(** [update_signup_status]: the first row with this id gets the new status;
    the loop reads the rows fetched at its start. *)
Fixpoint update_status_loop (signup_id new_status : string)
    (data : list (nat * signup)) (ws : list signup) : list signup :=
  match data with
  | [] => ws
  | (r_i, row) :: data' =>
      if String.eqb (row_id row) signup_id
      then update_cell_status r_i new_status ws
      else update_status_loop signup_id new_status data' ws
  end.

Definition update_signup_status (ws : list signup)
    (signup_id new_status : string) : list signup :=
  update_status_loop signup_id new_status (enumerate 2 ws) ws.

(** ** Logic *)

(** Order of [apply_priority_logic]: core first, then by [created_utc]. *)
Definition priority_key (r : signup) : nat * string :=
  (if String.eqb (role r) "core" then 0%nat else 1%nat, created_utc r).

Definition priority_le (a b : signup) : bool :=
  key_le (priority_key a) (priority_key b).

(** The ids of the rows at positions below the capacity. *)
Definition to_confirm_of (cap : Z) (signups : list signup) : gset string :=
  foldl (λ acc ir, if decide (Z.of_nat ir.1 < cap) then acc ∪ {[ row_id ir.2 ]}
                   else acc)
        ∅ (enumerate 0 signups).

Definition desired_status (to_confirm : gset string) (row : signup) : string :=
  if decide (row_id row ∈ to_confirm) then "confirmed" else "waitlist".

(** One pass of the write-back loop over the rows fetched at its start. *)
Definition write_back_step (sid : string) (to_confirm : gset string)
    (ws : list signup) (ir : nat * signup) : list signup :=
  let row := ir.2 in
  if decide (active_in sid row) then
    let desired := desired_status to_confirm row in
    if String.eqb (status row) desired then ws
    else update_cell_status ir.1 desired ws
  else ws.

Definition apply_priority_logic (st : sheet) (sid : string) : sheet :=
  match get_session_by_id st sid with
  | None => st
  | Some s =>
      let cap := capacity s in
      let signups := list_sort priority_le (read_signups (ws_signups st) sid) in
      let to_confirm := to_confirm_of cap signups in
      let data := ws_signups st in
      Sheet (ws_sessions st)
            (foldl (write_back_step sid to_confirm) data (enumerate 2 data))
  end.

(** [append_signup]; [new_id] is the fresh [uuid4] and [now_str] is
    [utc_now_str()]. *)
Definition append_signup (py : str_ops) (new_id now_str : string)
    (st : sheet) (sid nm rl : string) (by_ : option string)
  : (bool * string) * sheet :=
  if String.eqb (strip py nm) "" then (false, "Name is required.", st)
  else if negb (String.eqb rl "core" || String.eqb rl "outsider")
  then (false, "Invalid role.", st)
  else
    let existing := read_signups (ws_signups st) sid in
    if existsb (λ s, String.eqb (lower py (strip py (name s)))
                                (lower py (strip py nm)))
               existing
    then (false, nm +:+ " is already listed for this session.", st)
    else
      let row := Signup new_id sid (strip py nm) rl
                        (strip py (default "" by_)) now_str "waitlist" in
      let st1 := Sheet (ws_sessions st) (ws_signups st ++ [row]) in
      (true, "Added " +:+ nm +:+ " as " +:+ rl +:+ ".",
       apply_priority_logic st1 sid).

(** Order of [auto_fill_from_waitlist]: outsiders first, then by time. *)
Definition fill_key (r : signup) : nat * string :=
  (if String.eqb (role r) "outsider" then 0%nat else 1%nat, created_utc r).

Definition fill_le (a b : signup) : bool :=
  key_le (fill_key a) (fill_key b).

Fixpoint promote_loop (remaining : Z) (candidates : list signup)
    (promoted : Z) (ws : list signup) : Z * list signup :=
  match candidates with
  | [] => (promoted, ws)
  | r :: rest =>
      if promoted >=? remaining then (promoted, ws)
      else promote_loop remaining rest (promoted + 1)
             (update_signup_status ws (row_id r) "confirmed")
  end.

Definition before_cutoff (now : Z) (cutoff : option Z) : bool :=
  match cutoff with
  | Some c => now <? c
  | None => false
  end.

Definition is_confirmed (r : signup) : Prop := status r = "confirmed".

#[global] Instance is_confirmed_dec r : Decision (is_confirmed r).
Proof. unfold is_confirmed. apply _. Defined.

Definition remaining_of (cap : Z) (signups : list signup) : Z :=
  Z.max 0 (cap - Z.of_nat (length (filter is_confirmed signups))).

Definition candidates_of (signups : list signup) : list signup :=
  list_sort fill_le (filter (λ r, ¬ is_confirmed r) signups).

Definition auto_fill_from_waitlist (now : Z) (st : sheet) (sid : string)
    (force : bool) : (Z * Z) * sheet :=
  match get_session_by_id st sid with
  | None => (0, 0, st)
  | Some s =>
      let cap := capacity s in
      if negb force && before_cutoff now (cutoff_utc s) then (0, 0, st)
      else
        let signups := read_signups (ws_signups st) sid in
        let remaining := remaining_of cap signups in
        if remaining =? 0 then (0, 0, st)
        else
          let candidates := candidates_of signups in
          let res := promote_loop remaining candidates 0 (ws_signups st) in
          (res.1, Z.max 0 (remaining - res.1), Sheet (ws_sessions st) res.2)
  end.

(** ** Notions used in the statements *)

(** The effect of [update_signup_status] on a row when ids are unique. *)
Definition mark (x v : string) (r : signup) : signup :=
  if String.eqb (row_id r) x then set_status v r else r.

(** What the write-back loop does to one row. *)
Definition assign (sid : string) (to_confirm : gset string) (row : signup)
  : signup :=
  if decide (active_in sid row)
  then set_status (desired_status to_confirm row) row
  else row.

(** The ranking that [apply_priority_logic] computes. *)
Definition ranked (st : sheet) (sid : string) : list signup :=
  list_sort priority_le (read_signups (ws_signups st) sid).

(** Core before everyone else, then earlier [created_utc] first. *)
Definition core_then_time (a b : signup) : Prop :=
  (role a = "core" ∧ role b ≠ "core")
  ∨ ((role a = "core" ↔ role b = "core")
     ∧ String.leb (created_utc a) (created_utc b) = true).

(** Outsiders before everyone else, then earlier [created_utc] first. *)
Definition outsider_then_time (a b : signup) : Prop :=
  (role a = "outsider" ∧ role b ≠ "outsider")
  ∨ ((role a = "outsider" ↔ role b = "outsider")
     ∧ String.leb (created_utc a) (created_utc b) = true).

(** Numbers of confirmed and of unconfirmed active rows of a session. *)
Definition confirmed_count (ws : list signup) (sid : string) : nat :=
  length (filter is_confirmed (read_signups ws sid)).

Definition waitlist_count (ws : list signup) (sid : string) : nat :=
  length (filter (λ r, ¬ is_confirmed r) (read_signups ws sid)).

(** Confirming the given rows one after the other. *)
Definition confirm_all (ws l : list signup) : list signup :=
  foldl (λ w r, update_signup_status w (row_id r) "confirmed") ws l.

(** The effect of [confirm_all] on a row when ids are unique. *)
Definition mark_all (ids : list string) (r : signup) : signup :=
  if decide (row_id r ∈ ids) then set_status "confirmed" r else r.

(** ** Operations outside the roster logic *)

(** [write_session]; [sid] is the fresh [uuid4], the date comes in ISO form
    and the cutoff as an instant. *)
Definition write_session (sid : string) (st : sheet) (date : string)
    (cap cutoff : Z) (ttl nts : string) : string * sheet :=
  (sid,
   Sheet (ws_sessions st ++ [Session sid date cap (Some cutoff) ttl nts])
         (ws_signups st)).



(** The effect of [update_signup_status] on the rows: the first row with
    the id is written. *)
Fixpoint first_mark (x v : string) (l : list signup) : list signup :=
  match l with
  | [] => []
  | r :: l' =>
      if String.eqb (row_id r) x then set_status v r :: l'
      else r :: first_mark x v l'
  end.

(** The key under which [append_signup] compares names. *)
Definition name_key (py : str_ops) (r : signup) : string :=
  lower py (strip py (name r)).

(** No two active signups of the session share a name. *)
Definition names_unique (py : str_ops) (ws : list signup) (sid : string)
  : Prop :=
  NoDup (name_key py <$> read_signups ws sid).

(** The admin form's default date: [(5 - today.weekday()) % 7] days after
    today, where Monday is weekday 0. *)
Definition next_sat_offset (weekday : Z) : Z := (5 - weekday) mod 7.

(** ** Sample sheets *)

Definition sample_session : session :=
  Session "s1" "2024-06-01" 2 (Some 1000) "Weekly Badminton" "".

Definition mk (i nm rl t stt : string) : signup :=
  Signup i "s1" nm rl "" t stt.

Definition sample_sheet : sheet :=
  Sheet [sample_session]
        [ mk "a" "Dan" "outsider" "2024-05-01T10:00:00" "waitlist";
          mk "b" "Eve" "core" "2024-05-01T11:00:00" "waitlist";
          mk "c" "Old" "core" "2024-05-01T09:00:00" "removed";
          mk "d" "Fay" "core" "2024-05-01T12:00:00" "waitlist" ].

Definition removed_row : signup :=
  mk "e" "Ed" "core" "2024-05-01T08:00:00" "removed".

(** One place taken, two outsiders waiting, one removed row. *)
Definition open_sheet : sheet :=
  Sheet [sample_session]
        [ mk "a" "Ann" "core" "2024-05-01T09:00:00" "confirmed";
          mk "b" "Bob" "outsider" "2024-05-01T11:00:00" "waitlist";
          mk "c" "Cara" "outsider" "2024-05-01T10:00:00" "waitlist";
          removed_row ].

(** A session of capacity [cap] with no signup yet. *)
Definition empty_sheet (cap : Z) : sheet :=
  Sheet [Session "s1" "2024-06-01" cap (Some 1000) "Weekly Badminton" ""] [].

(** Registering through [append_signup], dropping the message. *)
Definition register (new_id now_str nm rl : string) (st : sheet) : sheet :=
  (append_signup ascii_ops new_id now_str st "s1" nm rl None).2.

(** Two sessions of capacity 1 whose signups alternate in the sheet; no
    status has been assigned yet. *)
Definition mixed_sheet : sheet :=
  Sheet [ Session "s1" "2024-06-01" 1 (Some 1000) "Weekly Badminton" "";
          Session "s2" "2024-06-08" 1 (Some 2000) "Weekly Badminton" "" ]
        [ Signup "a" "s1" "Ann" "core" "" "2024-05-01T09:00:00" "waitlist";
          Signup "b" "s2" "Bob" "core" "" "2024-05-01T09:30:00" "waitlist";
          Signup "c" "s1" "Cara" "outsider" "Ann" "2024-05-01T10:00:00"
                 "waitlist";
          Signup "d" "s2" "Dan" "outsider" "Bob" "2024-05-01T10:30:00"
                 "confirmed" ].

(** Two rows with the same id after one with another id. *)
Definition twin_rows : list signup :=
  [ mk "a" "Ann" "core" "2024-05-01T09:00:00" "confirmed";
    mk "b" "Bob" "outsider" "2024-05-01T11:00:00" "waitlist";
    mk "b" "Bea" "outsider" "2024-05-01T12:00:00" "waitlist" ].

(** Closed decidable goals are settled by evaluation. *)
Ltac by_computation :=
  match goal with
  | |- ?P => apply (bool_decide_unpack P); vm_compute; exact I
  end.

(** * Facts about the helpers *)

(** ** Order on keys *)

Lemma string_compare_OT (a b : string) :
  String.compare a b = String_as_OT.compare a b.
Proof.
  revert b. induction a as [|c a IH]; intros [|d b]; simpl; try reflexivity.
  all: rewrite IH; reflexivity.
Qed.

Lemma string_leb_spec (a b : string) :
  String.leb a b = true ↔ String_as_OT.lt a b ∨ a = b.
Proof.
  unfold String.leb. rewrite string_compare_OT.
  destruct (String_as_OT.compare_spec a b) as [He|Hl|Hg].
  - split; [intros _; right; exact He | reflexivity].
  - split; [intros _; left; exact Hl | reflexivity].
  - split; [discriminate|].
    intros [Hl | ->]; exfalso.
    + apply (StrictOrder_Irreflexive (R:=String_as_OT.lt) a).
      exact (StrictOrder_Transitive (R:=String_as_OT.lt) _ _ _ Hl Hg).
    + exact (StrictOrder_Irreflexive (R:=String_as_OT.lt) _ Hg).
Qed.

Lemma string_leb_refl (a : string) : String.leb a a = true.
Proof. apply string_leb_spec. right. reflexivity. Qed.

Lemma string_leb_trans (a b c : string) :
  String.leb a b = true → String.leb b c = true → String.leb a c = true.
Proof.
  rewrite !string_leb_spec.
  intros [H1 | ->] [H2 | ->]; auto.
  left. exact (StrictOrder_Transitive (R:=String_as_OT.lt) _ _ _ H1 H2).
Qed.

Lemma key_le_total (k1 k2 : nat * string) :
  key_le k1 k2 = false → key_le k2 k1 = true.
Proof.
  destruct k1 as [n1 s1], k2 as [n2 s2]. unfold key_le. simpl.
  destruct (Nat.ltb_spec n1 n2), (Nat.ltb_spec n2 n1),
    (Nat.eqb_spec n1 n2), (Nat.eqb_spec n2 n1); simpl; try lia; try congruence.
  destruct (String.leb_total s1 s2) as [-> | ->]; [discriminate | reflexivity].
Qed.

Lemma key_le_trans (k1 k2 k3 : nat * string) :
  key_le k1 k2 = true → key_le k2 k3 = true → key_le k1 k3 = true.
Proof.
  destruct k1 as [n1 s1], k2 as [n2 s2], k3 as [n3 s3]. unfold key_le. simpl.
  destruct (Nat.ltb_spec n1 n2), (Nat.ltb_spec n2 n3), (Nat.ltb_spec n1 n3),
    (Nat.eqb_spec n1 n2), (Nat.eqb_spec n2 n3), (Nat.eqb_spec n1 n3);
    simpl; try lia; try congruence.
  apply string_leb_trans.
Qed.

(** ** The stable sort *)

Section sort_facts.
Context {A : Type} (le : A → A → bool).

Lemma insert_by_perm x l : insert_by le x l ≡ₚ x :: l.
Proof.
  induction l as [|y l IH]; simpl; [done|].
  destruct (le x y); [done|].
  rewrite IH. apply Permutation_swap.
Qed.

Lemma list_sort_perm l : list_sort le l ≡ₚ l.
Proof.
  induction l as [|x l IH]; simpl; [done|].
  rewrite insert_by_perm. by rewrite IH.
Qed.

Lemma list_sort_length l : length (list_sort le l) = length l.
Proof. by rewrite list_sort_perm. Qed.

Lemma elem_of_list_sort x l : x ∈ list_sort le l ↔ x ∈ l.
Proof. by rewrite list_sort_perm. Qed.

Hypothesis le_total : ∀ x y, le x y = false → le y x = true.

Lemma insert_by_sorted x l : Sorted (leR le) l → Sorted (leR le) (insert_by le x l).
Proof.
  induction 1 as [|y l Hs IH Hhd]; simpl.
  - repeat constructor.
  - destruct (le x y) eqn:Hxy.
    + constructor; [by constructor|]. by constructor.
    + constructor; [done|].
      destruct Hhd as [|z l Hyz]; simpl.
      * constructor. by apply le_total.
      * destruct (le x z); constructor; [by apply le_total|done].
Qed.

Lemma list_sort_sorted l : Sorted (leR le) (list_sort le l).
Proof.
  induction l as [|x l IH]; simpl; [constructor|].
  by apply insert_by_sorted.
Qed.
End sort_facts.

(** Sorting commutes with any change of the rows that keeps the order. *)
Lemma insert_by_fmap {A} (le : A → A → bool) (f : A → A) x l :
  (∀ a b, le (f a) (f b) = le a b) →
  insert_by le (f x) (f <$> l) = f <$> insert_by le x l.
Proof.
  intros Hf. induction l as [|y l IH]; [done|].
  rewrite fmap_cons. simpl insert_by.
  rewrite Hf. destruct (le x y); [done|].
  rewrite IH. done.
Qed.

Lemma list_sort_fmap {A} (le : A → A → bool) (f : A → A) l :
  (∀ a b, le (f a) (f b) = le a b) →
  list_sort le (f <$> l) = f <$> list_sort le l.
Proof.
  intros Hf. induction l as [|x l IH]; [done|].
  change (list_sort le (f <$> x :: l))
    with (insert_by le (f x) (list_sort le (f <$> l))).
  rewrite IH. by apply insert_by_fmap.
Qed.

(** ** Rows and statuses *)

Lemma set_status_same (r : signup) : set_status (status r) r = r.
Proof. by destruct r. Qed.

Section filter_facts.
Context {A : Type} (P : A → Prop) `{!∀ x, Decision (P x)}.

Lemma filter_all (l : list A) : Forall P l → filter P l = l.
Proof.
  induction 1 as [|x l HP _ IH]; [done|].
  by rewrite filter_cons_True, IH.
Qed.

Lemma filter_none (l : list A) : Forall (λ x, ¬ P x) l → filter P l = [].
Proof.
  induction 1 as [|x l HP _ IH]; [done|].
  by rewrite filter_cons_False.
Qed.

Lemma filter_fmap_same (f : A → A) (l : list A) :
  (∀ x, P (f x) ↔ P x) → filter P (f <$> l) = f <$> filter P l.
Proof.
  intros Hf. induction l as [|x l IH]; [done|].
  rewrite fmap_cons, !filter_cons.
  destruct (decide (P (f x))) as [Hfx|Hfx], (decide (P x)) as [Hx|Hx];
    rewrite ?fmap_cons, IH; try done.
  - destruct Hx. by apply Hf.
  - destruct Hfx. by apply Hf.
Qed.

Lemma length_filter_alter (f : A → A) (i : nat) (l : list A) :
  (length (filter P (alter f i l)) ≤ S (length (filter P l)))%nat.
Proof.
  revert i. induction l as [|x l IH]; intros [|i]; [simpl; lia..| |].
  - change (alter f 0%nat (x :: l)) with (f x :: l).
    rewrite !filter_cons.
    destruct (decide (P (f x))), (decide (P x)); simpl length; lia.
  - change (alter f (S i) (x :: l)) with (x :: alter f i l).
    rewrite !filter_cons. specialize (IH i).
    destruct (decide (P x)); simpl length; lia.
Qed.
End filter_facts.

(** In a list without duplicate ids, selecting by the ids of a prefix
    selects the prefix. *)
Lemma filter_ids_prefix {A B} (f : A → B) `{!EqDecision B} (l1 l2 : list A) :
  NoDup (f <$> (l1 ++ l2)) →
  filter (λ r, f r ∈ f <$> l1) (l1 ++ l2) = l1
  ∧ filter (λ r, f r ∉ f <$> l1) (l1 ++ l2) = l2.
Proof.
  rewrite fmap_app, NoDup_app. intros (_ & Hdisj & _).
  assert (Forall (λ r, f r ∈ f <$> l1) l1) as H1.
  { apply Forall_forall. intros x Hx. by apply list_elem_of_fmap_2. }
  assert (Forall (λ r, f r ∉ f <$> l1) l2) as H2.
  { apply Forall_forall. intros x Hx Hin.
    apply (Hdisj _ Hin). by apply list_elem_of_fmap_2. }
  rewrite !filter_app. split.
  - rewrite (filter_all _ _ H1), (filter_none _ l2); [by rewrite app_nil_r|].
    eapply Forall_impl; [exact H2|]. naive_solver.
  - rewrite (filter_all _ _ H2), (filter_none _ l1); [done|].
    eapply Forall_impl; [exact H1|]. naive_solver.
Qed.

(** ** [update_signup_status] *)

Lemma enumerate_length {A} (k : nat) (l : list A) :
  length (enumerate k l) = length l.
Proof. revert k. induction l; intros; simpl; auto. Qed.

Lemma update_cell_status_app (pre post : list signup) (r : signup) v :
  update_cell_status (2 + length pre) v (pre ++ r :: post)
  = pre ++ set_status v r :: post.
Proof.
  unfold update_cell_status.
  replace (2 + length pre - 2)%nat with (length pre + 0)%nat by lia.
  by rewrite alter_app_r.
Qed.

(** Either nothing is written, or exactly one cell is. *)
Lemma update_status_loop_one x v data ws :
  update_status_loop x v data ws = ws
  ∨ ∃ j, update_status_loop x v data ws = alter (set_status v) j ws.
Proof.
  induction data as [|[r_i row] data IH]; simpl; [by left|].
  destruct (String.eqb (row_id row) x); [|done].
  right. by eexists.
Qed.

Lemma update_status_loop_unknown x v k (data ws : list signup) :
  x ∉ row_id <$> data →
  update_status_loop x v (enumerate k data) ws = ws.
Proof.
  revert k. induction data as [|row data IH]; intros k Hx; simpl; [done|].
  rewrite fmap_cons, not_elem_of_cons in Hx. destruct Hx as [Hne Hx].
  destruct (String.eqb_spec (row_id row) x) as [Heq|_]; [congruence|].
  by apply IH.
Qed.

Lemma mark_unknown x v (l : list signup) :
  x ∉ row_id <$> l → mark x v <$> l = l.
Proof.
  induction l as [|r l IH]; [done|].
  rewrite !fmap_cons, not_elem_of_cons. intros [Hne Hx].
  rewrite IH by done. unfold mark at 1.
  destruct (String.eqb_spec (row_id r) x); [congruence|done].
Qed.

Lemma update_status_loop_nodup x v (pre data : list signup) :
  x ∉ row_id <$> pre →
  NoDup (row_id <$> data) →
  update_status_loop x v (enumerate (2 + length pre) data) (pre ++ data)
  = pre ++ (mark x v <$> data).
Proof.
  revert pre. induction data as [|row data IH]; intros pre Hpre Hnd; [done|].
  rewrite fmap_cons in Hnd. apply NoDup_cons in Hnd as [Hrow Hnd].
  change (enumerate (2 + length pre) (row :: data))
    with ((2 + length pre, row)%nat :: enumerate (S (2 + length pre)) data).
  cbn [update_status_loop]. rewrite fmap_cons. unfold mark at 1.
  destruct (String.eqb_spec (row_id row) x) as [Heq|Hne].
  - rewrite update_cell_status_app, mark_unknown; [done|congruence].
  - specialize (IH (pre ++ [row])).
    rewrite length_app, <- app_assoc in IH. cbn [length app] in IH.
    replace (2 + (length pre + 1))%nat with (S (2 + length pre)) in IH by lia.
    rewrite IH, <- app_assoc; [done| |done].
    rewrite fmap_app. simpl. rewrite elem_of_app, list_elem_of_singleton.
    intros [?|?]; [done|congruence].
Qed.

(** With unique ids the row with the given id, and no other, is written. *)
Lemma update_signup_status_nodup ws x v :
  NoDup (row_id <$> ws) → update_signup_status ws x v = mark x v <$> ws.
Proof.
  intros Hnd. unfold update_signup_status.
  apply (update_status_loop_nodup x v [] ws); [|done].
  simpl. apply not_elem_of_nil.
Qed.

Lemma update_signup_status_length ws x v :
  length (update_signup_status ws x v) = length ws.
Proof.
  unfold update_signup_status.
  destruct (update_status_loop_one x v (enumerate 2 ws) ws) as [->|[j ->]];
    [done|]. apply length_alter.
Qed.

Lemma update_status_loop_first x v (pre data : list signup) :
  update_status_loop x v (enumerate (2 + length pre) data) (pre ++ data)
  = pre ++ first_mark x v data.
Proof.
  revert pre. induction data as [|row data IH]; intros pre; [done|].
  change (enumerate (2 + length pre) (row :: data))
    with ((2 + length pre, row)%nat :: enumerate (S (2 + length pre)) data).
  cbn [update_status_loop first_mark].
  destruct (String.eqb (row_id row) x).
  - apply update_cell_status_app.
  - specialize (IH (pre ++ [row])).
    rewrite length_app, <- app_assoc in IH. cbn [length app] in IH.
    replace (2 + (length pre + 1))%nat with (S (2 + length pre)) in IH by lia.
    by rewrite IH, <- app_assoc.
Qed.

Lemma update_signup_status_first ws x v :
  update_signup_status ws x v = first_mark x v ws.
Proof. apply (update_status_loop_first x v [] ws). Qed.

Lemma first_mark_row_id x v l : row_id <$> first_mark x v l = row_id <$> l.
Proof.
  induction l as [|r l IH]; [done|]. cbn [first_mark].
  destruct (String.eqb (row_id r) x); rewrite !fmap_cons; [done|].
  by rewrite IH.
Qed.

Lemma first_mark_hits x v (ws : list signup) :
  x ∈ row_id <$> ws →
  ∃ i row, first_mark x v ws !! i = Some row
           ∧ row_id row = x ∧ status row = v.
Proof.
  induction ws as [|r ws IH]; [by intros ?%elem_of_nil|].
  rewrite fmap_cons, elem_of_cons. intros Hx. cbn [first_mark].
  destruct (String.eqb_spec (row_id r) x) as [Heq|Hne].
  - by exists 0%nat, (set_status v r).
  - destruct Hx as [->|Hx]; [done|].
    destruct (IH Hx) as (i & row & Hi & Hrow). by exists (S i), row.
Qed.

Lemma first_mark_keeps x v (ws : list signup) i row :
  ws !! i = Some row → status row = v →
  ∃ row', first_mark x v ws !! i = Some row'
          ∧ row_id row' = row_id row ∧ status row' = v.
Proof.
  revert i. induction ws as [|r ws IH]; intros i Hi Hst; [done|].
  cbn [first_mark]. destruct (String.eqb (row_id r) x).
  - destruct i as [|i]; simpl in *.
    + injection Hi as ->. by exists (set_status v row).
    + by exists row.
  - destruct i as [|i]; simpl in *.
    + injection Hi as ->. by exists row.
    + by apply IH.
Qed.

(** ** [apply_priority_logic] *)

(** The ids collected by the loop are those of the first [cap] rows. *)
Lemma to_confirm_loop (cap : Z) (x : string) (l : list signup) k
    (acc : gset string) :
  x ∈ foldl (λ acc ir, if decide (Z.of_nat ir.1 < cap)
                       then acc ∪ {[ row_id ir.2 ]} else acc)
            acc (enumerate k l)
  ↔ x ∈ acc ∨ x ∈ row_id <$> take (Z.to_nat (cap - Z.of_nat k)) l.
Proof.
  revert k acc. induction l as [|r l IH]; intros k acc.
  - rewrite take_nil. simpl. rewrite elem_of_nil. tauto.
  - cbn [enumerate foldl fst snd]. rewrite IH. case_decide as Hk.
    + replace (Z.to_nat (cap - Z.of_nat k))
        with (S (Z.to_nat (cap - Z.of_nat (S k)))) by lia.
      rewrite firstn_cons, fmap_cons, elem_of_cons, elem_of_union,
        elem_of_singleton. tauto.
    + replace (Z.to_nat (cap - Z.of_nat k)) with 0%nat by lia.
      replace (Z.to_nat (cap - Z.of_nat (S k))) with 0%nat by lia.
      rewrite !take_0. tauto.
Qed.

Lemma elem_of_to_confirm_of cap l x :
  x ∈ to_confirm_of cap l ↔ x ∈ row_id <$> take (Z.to_nat cap) l.
Proof.
  unfold to_confirm_of. rewrite to_confirm_loop.
  replace (cap - Z.of_nat 0) with cap by lia.
  rewrite elem_of_empty. tauto.
Qed.

Lemma write_back_step_app sid T (pre post : list signup) (r : signup) :
  write_back_step sid T (pre ++ r :: post) ((2 + length pre)%nat, r)
  = pre ++ assign sid T r :: post.
Proof.
  unfold write_back_step, assign. cbn [fst snd].
  case_decide; [|done].
  destruct (String.eqb_spec (status r) (desired_status T r)) as [Heq|Hne].
  - by rewrite <- Heq, set_status_same.
  - apply update_cell_status_app.
Qed.

Lemma write_back_loop sid T (pre data : list signup) :
  foldl (write_back_step sid T) (pre ++ data)
        (enumerate (2 + length pre) data)
  = pre ++ (assign sid T <$> data).
Proof.
  revert pre. induction data as [|r data IH]; intros pre; [done|].
  change (enumerate (2 + length pre) (r :: data))
    with ((2 + length pre, r)%nat :: enumerate (S (2 + length pre)) data).
  cbn [foldl]. rewrite write_back_step_app.
  specialize (IH (pre ++ [assign sid T r])).
  rewrite length_app, <- app_assoc in IH. cbn [length app] in IH.
  replace (2 + (length pre + 1))%nat with (S (2 + length pre)) in IH by lia.
  by rewrite IH, <- app_assoc.
Qed.

Lemma apply_priority_logic_found st sid s :
  get_session_by_id st sid = Some s →
  apply_priority_logic st sid
  = Sheet (ws_sessions st)
          (assign sid (to_confirm_of (capacity s) (ranked st sid))
             <$> ws_signups st).
Proof.
  intros Hs. unfold apply_priority_logic. rewrite Hs. cbv zeta.
  f_equal. apply (write_back_loop sid _ []).
Qed.

Lemma assign_row_id sid T r : row_id (assign sid T r) = row_id r.
Proof. unfold assign. by case_decide. Qed.

Lemma assign_active sid T sid' r :
  active_in sid' (assign sid T r) ↔ active_in sid' r.
Proof.
  unfold assign, active_in. case_decide as Ha; [|done].
  unfold desired_status. simpl. destruct Ha as [_ Ha].
  case_decide; split; intros [? _]; split; done.
Qed.

Lemma assign_priority_le sid T a b :
  priority_le (assign sid T a) (assign sid T b) = priority_le a b.
Proof. unfold assign. by repeat case_decide. Qed.

Lemma assign_twice sid T r : assign sid T (assign sid T r) = assign sid T r.
Proof.
  unfold assign at 1. case_decide as Ha; [|done].
  apply assign_active in Ha.
  unfold assign. rewrite decide_True by done.
  unfold desired_status. simpl. by case_decide.
Qed.

Lemma read_signups_assign sid T sid' ws :
  read_signups (assign sid T <$> ws) sid'
  = assign sid T <$> read_signups ws sid'.
Proof.
  unfold read_signups. apply filter_fmap_same.
  intros r. apply assign_active.
Qed.

Lemma to_confirm_of_fmap cap (f : signup → signup) l :
  (∀ r, row_id (f r) = row_id r) →
  to_confirm_of cap (f <$> l) = to_confirm_of cap l.
Proof.
  intros Hf. apply set_eq. intros x.
  rewrite !elem_of_to_confirm_of, <- fmap_take, <- list_fmap_compose.
  erewrite list_fmap_ext; [done|]. intros i r _. simpl. apply Hf.
Qed.

(** ** The two rankings *)

Lemma priority_le_spec a b : priority_le a b = true ↔ core_then_time a b.
Proof.
  unfold priority_le, priority_key, key_le, core_then_time. cbn [fst snd].
  destruct (String.eqb_spec (role a) "core"),
    (String.eqb_spec (role b) "core"); simpl; intuition congruence.
Qed.

Lemma fill_le_spec a b : fill_le a b = true ↔ outsider_then_time a b.
Proof.
  unfold fill_le, fill_key, key_le, outsider_then_time. cbn [fst snd].
  destruct (String.eqb_spec (role a) "outsider"),
    (String.eqb_spec (role b) "outsider"); simpl; intuition congruence.
Qed.

Lemma StronglySorted_impl {A} (R1 R2 : relation A) (l : list A) :
  (∀ x y, R1 x y → R2 x y) → StronglySorted R1 l → StronglySorted R2 l.
Proof.
  intros HR. induction 1 as [|x l _ IH Hx]; constructor; [done|].
  eapply Forall_impl; [exact Hx|]. auto.
Qed.

Lemma keyed_sort_strongly_sorted (key : signup → nat * string)
    (l : list signup) :
  StronglySorted (leR (λ a b, key_le (key a) (key b)))
                 (list_sort (λ a b, key_le (key a) (key b)) l).
Proof.
  assert (Transitive (leR (λ a b : signup, key_le (key a) (key b)))) as Htr.
  { intros a b c. apply key_le_trans. }
  apply Sorted_StronglySorted; [exact Htr|].
  apply list_sort_sorted. intros a b. apply key_le_total.
Qed.

Lemma eq_reflexive_perm {A} (l k : list A) : l = k → l ≡ₚ k.
Proof. by intros ->. Qed.

Lemma ranked_perm st sid : ranked st sid ≡ₚ read_signups (ws_signups st) sid.
Proof. apply list_sort_perm. Qed.

Lemma ranked_sorted st sid : StronglySorted core_then_time (ranked st sid).
Proof.
  eapply StronglySorted_impl;
    [|apply (keyed_sort_strongly_sorted priority_key)].
  intros a b. apply priority_le_spec.
Qed.

Lemma candidates_of_perm l :
  candidates_of l ≡ₚ filter (λ r, ¬ is_confirmed r) l.
Proof. apply list_sort_perm. Qed.

Lemma candidates_of_sorted l :
  StronglySorted outsider_then_time (candidates_of l).
Proof.
  eapply StronglySorted_impl;
    [|apply (keyed_sort_strongly_sorted fill_key)].
  intros a b. apply fill_le_spec.
Qed.

Lemma elem_of_read_signups ws sid r :
  r ∈ read_signups ws sid ↔ active_in sid r ∧ r ∈ ws.
Proof. apply list_elem_of_filter. Qed.

(** Statuses of the active rows after the write-back. *)
Lemma filter_confirmed_assign sid T (l : list signup) :
  Forall (active_in sid) l →
  filter is_confirmed (assign sid T <$> l)
  = set_status "confirmed" <$> filter (λ r, row_id r ∈ T) l
  ∧ filter (λ r, ¬ is_confirmed r) (assign sid T <$> l)
  = set_status "waitlist" <$> filter (λ r, row_id r ∉ T) l.
Proof.
  induction 1 as [|r l Hr _ [IH1 IH2]]; [done|].
  rewrite fmap_cons, !filter_cons, IH1, IH2.
  assert (assign sid T r = set_status (desired_status T r) r) as ->.
  { unfold assign. by rewrite decide_True. }
  unfold desired_status, is_confirmed.
  destruct (decide (row_id r ∈ T)) as [Hin|Hin]; cbn [status set_status];
    repeat case_decide; first [done | exfalso; tauto | congruence].
Qed.

(** ** [auto_fill_from_waitlist] *)

Lemma promote_loop_spec remaining cands p ws :
  promote_loop remaining cands p ws
  = (p + Z.of_nat (length (take (Z.to_nat (remaining - p)) cands)),
     confirm_all ws (take (Z.to_nat (remaining - p)) cands)).
Proof.
  revert p ws. induction cands as [|r cands IH]; intros p ws.
  - rewrite take_nil. simpl. f_equal. lia.
  - cbn [promote_loop]. destruct (Z.geb_spec p remaining) as [Hge|Hlt].
    + replace (Z.to_nat (remaining - p)) with 0%nat by lia.
      rewrite take_0. simpl. f_equal. lia.
    + rewrite IH.
      replace (Z.to_nat (remaining - p))
        with (S (Z.to_nat (remaining - (p + 1)))) by lia.
      rewrite firstn_cons. cbn [length confirm_all foldl]. f_equal. lia.
Qed.

Lemma confirmed_count_update ws sid x v :
  (confirmed_count (update_signup_status ws x v) sid
   ≤ S (confirmed_count ws sid))%nat.
Proof.
  unfold confirmed_count, read_signups, update_signup_status.
  destruct (update_status_loop_one x v (enumerate 2 ws) ws) as [->|[j ->]];
    [lia|].
  rewrite !list_filter_filter. apply length_filter_alter.
Qed.

Lemma confirmed_count_confirm_all ws sid l :
  (confirmed_count (confirm_all ws l) sid
   ≤ confirmed_count ws sid + length l)%nat.
Proof.
  revert ws. induction l as [|r l IH]; intros ws; simpl; [lia|].
  specialize (IH (update_signup_status ws (row_id r) "confirmed")).
  pose proof (confirmed_count_update ws sid (row_id r) "confirmed").
  unfold confirm_all in *. lia.
Qed.

Lemma mark_row_id x v r : row_id (mark x v r) = row_id r.
Proof. unfold mark. by destruct (String.eqb _ _). Qed.

Lemma mark_all_cons x ids r :
  mark_all ids (mark x "confirmed" r) = mark_all (x :: ids) r.
Proof.
  unfold mark_all. rewrite mark_row_id. unfold mark.
  destruct (String.eqb_spec (row_id r) x) as [Heq|Hne].
  - rewrite (decide_True (P:=row_id r ∈ x :: ids)) by (subst; left).
    by case_decide.
  - destruct (decide (row_id r ∈ ids)) as [Hin|Hin].
    + rewrite decide_True; [done|by right].
    + rewrite decide_False; [done|].
      rewrite elem_of_cons. intros [?|?]; done.
Qed.

Lemma confirm_all_nodup ws l :
  NoDup (row_id <$> ws) →
  confirm_all ws l = mark_all (row_id <$> l) <$> ws.
Proof.
  revert ws. induction l as [|c l IH]; intros ws Hnd.
  - simpl. rewrite <- (list_fmap_id ws) at 1.
    apply list_fmap_ext. intros i r _. unfold mark_all.
    rewrite decide_False; [done|apply not_elem_of_nil].
  - cbn [confirm_all foldl]. fold (confirm_all
      (update_signup_status ws (row_id c) "confirmed") l).
    rewrite update_signup_status_nodup by done.
    rewrite IH.
    + rewrite <- list_fmap_compose. apply list_fmap_ext.
      intros i r _. simpl. apply mark_all_cons.
    + rewrite <- list_fmap_compose.
      erewrite list_fmap_ext; [exact Hnd|].
      intros i r _. simpl. apply mark_row_id.
Qed.

Lemma NoDup_fmap_elem_inj {A B} (f : A → B) (l : list A) x y :
  NoDup (f <$> l) → x ∈ l → y ∈ l → f x = f y → x = y.
Proof.
  induction l as [|a l IH]; [by rewrite elem_of_nil|].
  rewrite fmap_cons, NoDup_cons, !elem_of_cons.
  intros [Ha Hnd] [->|Hx] [->|Hy] Hf; auto.
  - destruct Ha. rewrite Hf. by apply list_elem_of_fmap_2.
  - destruct Ha. rewrite <- Hf. by apply list_elem_of_fmap_2.
Qed.

(** The candidates are rows of the sheet. *)
Lemma candidates_in_sheet ws sid n r :
  r ∈ take n (candidates_of (read_signups ws sid)) →
  r ∈ ws ∧ active_in sid r ∧ ¬ is_confirmed r.
Proof.
  intros Hr. apply elem_of_take in Hr as (i & Hr & _).
  apply list_elem_of_lookup_2 in Hr.
  rewrite candidates_of_perm in Hr.
  apply list_elem_of_filter in Hr as [Hnc Hr].
  apply elem_of_read_signups in Hr. tauto.
Qed.

(** * The roster properties *)

Lemma get_session_by_id_sessions st st' sid :
  ws_sessions st' = ws_sessions st →
  get_session_by_id st' sid = get_session_by_id st sid.
Proof. unfold get_session_by_id, read_sessions. by intros ->. Qed.

Lemma ranked_assign st sid s :
  get_session_by_id st sid = Some s →
  ranked (apply_priority_logic st sid) sid
  = assign sid (to_confirm_of (capacity s) (ranked st sid)) <$> ranked st sid.
Proof.
  intros Hs. rewrite (apply_priority_logic_found _ _ _ Hs).
  unfold ranked. cbn [ws_signups].
  rewrite read_signups_assign. apply list_sort_fmap.
  intros a b. apply assign_priority_le.
Qed.

(** C7 (idempotence).  Running [apply_priority_logic] a second time on the
    state left by a first run gives that same state: the second run writes
    no status. *)
Theorem recompute_idempotent (st : sheet) (sid : string) :
  apply_priority_logic (apply_priority_logic st sid) sid
  = apply_priority_logic st sid.
Proof.
  destruct (get_session_by_id st sid) as [s|] eqn:Hs.
  - assert (get_session_by_id (apply_priority_logic st sid) sid = Some s)
      as Hs'.
    { rewrite <- Hs. apply get_session_by_id_sessions.
      by rewrite (apply_priority_logic_found _ _ _ Hs). }
    rewrite (apply_priority_logic_found _ _ _ Hs'), (ranked_assign _ _ _ Hs).
    rewrite (to_confirm_of_fmap _ _ _ (assign_row_id sid _)).
    rewrite (apply_priority_logic_found _ _ _ Hs). cbn [ws_sessions ws_signups].
    f_equal. rewrite <- list_fmap_compose. apply list_fmap_ext.
    intros i r _. apply assign_twice.
  - unfold apply_priority_logic. by rewrite !Hs.
Qed.

(** C10 (frame of the recompute).  [apply_priority_logic st sid] never
    writes the sessions worksheet, keeps the number of signup rows, changes
    at most the status cell of any row, and leaves every row of another
    session exactly as it was. *)
Theorem recompute_frame (st : sheet) (sid : string) :
  ws_sessions (apply_priority_logic st sid) = ws_sessions st
  ∧ length (ws_signups (apply_priority_logic st sid)) = length (ws_signups st)
  ∧ (∀ i r, ws_signups st !! i = Some r →
       ∃ v, ws_signups (apply_priority_logic st sid) !! i
            = Some (set_status v r))
  ∧ (∀ i r, ws_signups st !! i = Some r → session_id r ≠ sid →
       ws_signups (apply_priority_logic st sid) !! i = Some r).
Proof.
  destruct (get_session_by_id st sid) as [s|] eqn:Hs.
  - rewrite (apply_priority_logic_found _ _ _ Hs). cbn [ws_sessions ws_signups].
    split; [done|]. split; [apply length_fmap|]. split.
    + intros i r Hi. rewrite list_lookup_fmap, Hi. simpl.
      unfold assign. case_decide; [by eexists|].
      exists (status r). by rewrite set_status_same.
    + intros i r Hi Hne. rewrite list_lookup_fmap, Hi. simpl.
      unfold assign. rewrite decide_False; [done|]. by intros [? _].
  - unfold apply_priority_logic. rewrite Hs.
    split; [done|]. split; [done|]. split; [|done].
    intros i r Hi. exists (status r). by rewrite set_status_same.
Qed.

(** C9 (unknown signup id).  [update_signup_status] with an id that no
    stored row carries returns normally and leaves every row as it was; the
    operation has no error outcome. *)
Theorem update_unknown_id_noop (ws : list signup) (x v : string) :
  x ∉ row_id <$> ws → update_signup_status ws x v = ws.
Proof. intros Hx. by apply update_status_loop_unknown. Qed.

(** C5 (duplicate rejection).  Whatever [strip] and [lower] are: when an
    active signup of the session has the same name after [strip] and
    [lower], that is up to surrounding blanks and letter case,
    [append_signup]
    fails and returns the sheet it was given: no row is appended and no
    recompute runs.  For a name and role that pass the two validation
    checks made first, the failure is the duplicate message. *)
Theorem duplicate_name_rejected (py : str_ops) (new_id now_str : string)
    (st : sheet) (sid nm rl : string) (by_ : option string) :
  (∃ r, r ∈ read_signups (ws_signups st) sid
        ∧ lower py (strip py (name r)) = lower py (strip py nm)) →
  let res := append_signup py new_id now_str st sid nm rl by_ in
  (res.1.1 = false ∧ res.2 = st)
  ∧ (strip py nm ≠ "" → rl = "core" ∨ rl = "outsider" →
     res.1.2 = nm +:+ " is already listed for this session.").
Proof.
  intros (r & Hr & Hname). unfold append_signup.
  assert (existsb (λ s, String.eqb (lower py (strip py (name s)))
                                   (lower py (strip py nm)))
            (read_signups (ws_signups st) sid) = true) as Hdup.
  { apply existsb_exists. exists r. split; [by apply list_elem_of_In|].
    by apply String.eqb_eq. }
  rewrite Hdup.
  destruct (String.eqb_spec (strip py nm) "") as [Hb|Hb].
  { cbn. split; [done|]. intros Hn. by destruct Hn. }
  destruct (String.eqb_spec rl "core") as [Hc|Hc];
    destruct (String.eqb_spec rl "outsider") as [Ho|Ho];
    cbn; (split; [done|]); try done.
  intros _ [?|?]; done.
Qed.

(** The active rows of the session after a recompute, split by status. *)
Lemma recompute_partition st sid s :
  get_session_by_id st sid = Some s →
  NoDup (row_id <$> read_signups (ws_signups st) sid) →
  let after := read_signups (ws_signups (apply_priority_logic st sid)) sid in
  filter is_confirmed after
    ≡ₚ set_status "confirmed" <$> take (Z.to_nat (capacity s)) (ranked st sid)
  ∧ filter (λ r, ¬ is_confirmed r) after
    ≡ₚ set_status "waitlist" <$> drop (Z.to_nat (capacity s)) (ranked st sid).
Proof.
  intros Hs Hnd after. subst after.
  rewrite (apply_priority_logic_found _ _ _ Hs). cbn [ws_signups].
  rewrite read_signups_assign.
  set (T := to_confirm_of (capacity s) (ranked st sid)).
  set (n := Z.to_nat (capacity s)).
  assert (Forall (active_in sid) (ranked st sid)) as Hact.
  { apply Forall_forall. intros r Hr. rewrite ranked_perm in Hr.
    by apply elem_of_read_signups in Hr as [? _]. }
  assert (NoDup (row_id <$> (take n (ranked st sid) ++ drop n (ranked st sid))))
    as Hnd'.
  { rewrite take_drop. by rewrite ranked_perm. }
  destruct (filter_ids_prefix row_id _ _ Hnd') as [Htake Hdrop].
  rewrite take_drop in Htake, Hdrop.
  destruct (filter_confirmed_assign sid T _ Hact) as [Hc Hw].
  rewrite <- (ranked_perm st sid), Hc, Hw.
  split; [rewrite <- Htake at 1 | rewrite <- Hdrop at 1];
    apply eq_reflexive_perm; f_equal; apply list_filter_iff;
    intros r; unfold T; rewrite elem_of_to_confirm_of; done.
Qed.

(** C2 (priority ordering).  With unique signup ids, after
    [apply_priority_logic] the confirmed rows of the session are exactly the
    first [capacity] rows of its active signups ranked core first and then
    by [created_utc], and the other active rows are exactly the rest of
    that ranking, all with status waitlist. *)
Theorem recompute_confirms_first_capacity (st : sheet) (sid : string)
    (s : session) :
  get_session_by_id st sid = Some s →
  NoDup (row_id <$> read_signups (ws_signups st) sid) →
  let order := ranked st sid in
  let after := read_signups (ws_signups (apply_priority_logic st sid)) sid in
  order ≡ₚ read_signups (ws_signups st) sid
  ∧ StronglySorted core_then_time order
  ∧ filter is_confirmed after
      ≡ₚ set_status "confirmed" <$> take (Z.to_nat (capacity s)) order
  ∧ filter (λ r, ¬ is_confirmed r) after
      ≡ₚ set_status "waitlist" <$> drop (Z.to_nat (capacity s)) order.
Proof.
  intros Hs Hnd order after.
  split; [apply ranked_perm|]. split; [apply ranked_sorted|].
  by apply recompute_partition.
Qed.

Lemma auto_fill_found now st sid s force :
  get_session_by_id st sid = Some s →
  negb force && before_cutoff now (cutoff_utc s) = false →
  let signups := read_signups (ws_signups st) sid in
  let r := remaining_of (capacity s) signups in
  let promoted := take (Z.to_nat r) (candidates_of signups) in
  auto_fill_from_waitlist now st sid force
  = (Z.of_nat (length promoted), r - Z.of_nat (length promoted),
     Sheet (ws_sessions st) (confirm_all (ws_signups st) promoted)).
Proof.
  intros Hs Hgate signups r promoted.
  unfold auto_fill_from_waitlist. rewrite Hs, Hgate.
  fold signups. fold r.
  destruct (Z.eqb_spec r 0) as [Hr|Hr].
  - subst promoted. rewrite Hr. simpl. by destruct st.
  - rewrite promote_loop_spec. cbn [fst snd].
    replace (r - 0) with r by lia. fold promoted.
    assert (length promoted ≤ Z.to_nat r)%nat.
    { unfold promoted. rewrite length_take. lia. }
    assert (0 ≤ r) by (unfold r, remaining_of; lia).
    repeat f_equal; lia.
Qed.

(** C3 (capacity invariant).  For a session with a non-negative capacity:
    after [apply_priority_logic], given unique signup ids, the confirmed
    rows of the session number at most the capacity; and after
    [auto_fill_from_waitlist], given that they numbered at most the capacity
    before the call, they still do. *)
Theorem confirmed_within_capacity (now : Z) (st : sheet) (sid : string)
    (s : session) (force : bool) :
  get_session_by_id st sid = Some s →
  (0 ≤ capacity s →
   NoDup (row_id <$> read_signups (ws_signups st) sid) →
   Z.of_nat (confirmed_count (ws_signups (apply_priority_logic st sid)) sid)
   ≤ capacity s)
  ∧ (Z.of_nat (confirmed_count (ws_signups st) sid) ≤ capacity s →
     Z.of_nat (confirmed_count
                 (ws_signups (auto_fill_from_waitlist now st sid force).2) sid)
     ≤ capacity s).
Proof.
  intros Hs. split.
  - intros Hcap Hnd. unfold confirmed_count.
    destruct (recompute_partition st sid s Hs Hnd) as [-> _].
    rewrite length_fmap, length_take. lia.
  - intros Hle.
    destruct (negb force && before_cutoff now (cutoff_utc s)) eqn:Hgate.
    + unfold auto_fill_from_waitlist. by rewrite Hs, Hgate.
    + rewrite (auto_fill_found _ _ _ _ _ Hs Hgate). cbn [snd ws_signups].
      etrans; [apply inj_le, confirmed_count_confirm_all|].
      rewrite length_take. unfold remaining_of.
      fold (confirmed_count (ws_signups st) sid). lia.
Qed.

(** With unique ids, the rows written by a promotion are the promoted
    candidates themselves. *)
Lemma mark_all_candidates ws sid n row :
  NoDup (row_id <$> ws) → row ∈ ws →
  let promoted := take n (candidates_of (read_signups ws sid)) in
  mark_all (row_id <$> promoted) row
  = if decide (row ∈ promoted) then set_status "confirmed" row else row.
Proof.
  intros Hnd Hrow promoted. unfold mark_all.
  destruct (decide (row ∈ promoted)) as [Hin|Hin].
  - rewrite decide_True; [done|]. by apply list_elem_of_fmap_2.
  - rewrite decide_False; [done|].
    intros (c & Hid & Hc)%list_elem_of_fmap.
    destruct (candidates_in_sheet _ _ _ _ Hc) as (Hcws & _ & _).
    apply Hin.
    by rewrite (NoDup_fmap_elem_inj row_id ws row c Hnd Hrow Hcws Hid).
Qed.

Lemma confirm_all_candidates ws sid n :
  NoDup (row_id <$> ws) →
  let promoted := take n (candidates_of (read_signups ws sid)) in
  confirm_all ws promoted
  = (λ row, if decide (row ∈ promoted) then set_status "confirmed" row
            else row) <$> ws.
Proof.
  intros Hnd promoted. rewrite confirm_all_nodup by done.
  apply list_fmap_ext. intros i row Hi.
  apply mark_all_candidates; [done|]. by eapply list_elem_of_lookup_2.
Qed.

Lemma confirm_all_cons ws c l :
  confirm_all ws (c :: l)
  = confirm_all (first_mark (row_id c) "confirmed" ws) l.
Proof.
  unfold confirm_all. cbn [foldl]. by rewrite update_signup_status_first.
Qed.

Lemma confirm_all_row_id ws l : row_id <$> confirm_all ws l = row_id <$> ws.
Proof.
  revert ws. induction l as [|c l IH]; intros ws; [done|].
  by rewrite confirm_all_cons, IH, first_mark_row_id.
Qed.

Lemma confirm_all_keeps ws l i row :
  ws !! i = Some row → status row = "confirmed" →
  ∃ row', confirm_all ws l !! i = Some row'
          ∧ row_id row' = row_id row ∧ status row' = "confirmed".
Proof.
  revert ws row. induction l as [|c l IH]; intros ws row Hi Hst.
  - by exists row.
  - rewrite confirm_all_cons.
    destruct (first_mark_keeps (row_id c) "confirmed" ws i row Hi Hst)
      as (row1 & Hi1 & Hid1 & Hst1).
    destruct (IH _ _ Hi1 Hst1) as (row' & Hi' & Hid' & Hst').
    exists row'. split; [done|]. split; [congruence|done].
Qed.

(** Every row handed to the promotion loop has, afterwards, a confirmed
    row under its id. *)
Lemma confirm_all_confirms ws l x :
  x ∈ l → row_id x ∈ row_id <$> ws →
  ∃ i row, confirm_all ws l !! i = Some row
           ∧ row_id row = row_id x ∧ status row = "confirmed".
Proof.
  revert ws. induction l as [|c l IH]; intros ws Hx Hws;
    [by apply elem_of_nil in Hx|].
  rewrite confirm_all_cons. apply elem_of_cons in Hx as [->|Hx].
  - destruct (first_mark_hits (row_id c) "confirmed" ws Hws)
      as (i & row & Hi & Hid & Hst).
    destruct (confirm_all_keeps _ l _ _ Hi Hst) as (row' & Hi' & Hid' & Hst').
    exists i, row'. split; [done|]. split; [congruence|done].
  - apply IH; [done|]. by rewrite first_mark_row_id.
Qed.

(** C4 (cutoff gating).  For a session whose cutoff is set:
    [auto_fill_from_waitlist] without [force] at a time strictly before the
    cutoff returns [(0, 0)] and the unchanged sheet.  At or after the
    cutoff, or with [force], it promotes the first candidates, as many as
    the remaining capacity [max 0 (capacity - confirmed)] allows: each of
    them has a confirmed row under its id afterwards, and with unique ids
    exactly their rows become confirmed while every other row stays as it
    was. *)
Theorem cutoff_gates_promotion (now : Z) (st : sheet) (sid : string)
    (s : session) (c : Z) (force : bool) :
  get_session_by_id st sid = Some s →
  cutoff_utc s = Some c →
  let signups := read_signups (ws_signups st) sid in
  let r := Z.max 0 (capacity s - Z.of_nat (confirmed_count (ws_signups st) sid)) in
  let cands := candidates_of signups in
  let promoted := take (Z.to_nat r) cands in
  let res := auto_fill_from_waitlist now st sid force in
  (force = false → now < c → res = (0, 0, st))
  ∧ (force = true ∨ c ≤ now →
     res.1.1 = Z.min r (Z.of_nat (length cands))
     ∧ Z.of_nat (length promoted) = res.1.1
     ∧ ws_sessions res.2 = ws_sessions st
     ∧ (∀ x, x ∈ promoted →
          ∃ i row, ws_signups res.2 !! i = Some row
                   ∧ row_id row = row_id x ∧ status row = "confirmed")
     ∧ (NoDup (row_id <$> ws_signups st) →
        ∀ i row, ws_signups st !! i = Some row →
          ws_signups res.2 !! i
          = Some (if decide (row ∈ promoted)
                  then set_status "confirmed" row else row))).
Proof.
  intros Hs Hc signups r cands promoted res. split.
  - intros -> Hlt. subst res. unfold auto_fill_from_waitlist.
    rewrite Hs, Hc. simpl. by rewrite (proj2 (Z.ltb_lt now c) Hlt).
  - intros Hpass.
    assert (negb force && before_cutoff now (cutoff_utc s) = false) as Hgate.
    { rewrite Hc. simpl. destruct Hpass as [->|Hle]; [done|].
      rewrite (proj2 (Z.ltb_ge now c) Hle). apply andb_false_r. }
    subst res. rewrite (auto_fill_found _ _ _ _ _ Hs Hgate).
    cbn [fst snd ws_signups ws_sessions].
    change (remaining_of (capacity s) (read_signups (ws_signups st) sid))
      with r.
    fold signups. fold cands. fold promoted.
    split; [unfold promoted; rewrite length_take; lia|].
    split; [done|]. split; [done|]. split.
    + intros x Hx. apply confirm_all_confirms; [done|].
      apply candidates_in_sheet in Hx as (Hws & _ & _).
      by apply list_elem_of_fmap_2.
    + intros Hnd i row Hi. unfold promoted, cands, signups.
      rewrite confirm_all_candidates by done.
      by rewrite list_lookup_fmap, Hi.
Qed.

(** C6 (promotion order).  With unique signup ids, when
    [auto_fill_from_waitlist] gets past its gate with remaining capacity
    [r > 0], the candidates are the active unconfirmed rows ranked outsiders
    first and then by [created_utc]; the rows it confirms are exactly the
    first [min r (number of candidates)] of them, and every other row of the
    sheet is left as it was. *)
Theorem promotion_takes_first_candidates (now : Z) (st : sheet)
    (sid : string) (s : session) (force : bool) :
  get_session_by_id st sid = Some s →
  negb force && before_cutoff now (cutoff_utc s) = false →
  NoDup (row_id <$> ws_signups st) →
  let signups := read_signups (ws_signups st) sid in
  let r := remaining_of (capacity s) signups in
  let cands := candidates_of signups in
  let promoted := take (Z.to_nat r) cands in
  let res := auto_fill_from_waitlist now st sid force in
  0 < r →
  cands ≡ₚ filter (λ x, ¬ is_confirmed x) signups
  ∧ StronglySorted outsider_then_time cands
  ∧ length promoted = Nat.min (Z.to_nat r) (length cands)
  ∧ res.1.1 = Z.of_nat (length promoted)
  ∧ (∀ i row, ws_signups st !! i = Some row →
       ws_signups res.2 !! i
       = Some (if decide (row ∈ promoted) then set_status "confirmed" row
               else row)).
Proof.
  intros Hs Hgate Hnd signups r cands promoted res Hr.
  split; [apply candidates_of_perm|].
  split; [apply candidates_of_sorted|].
  split; [apply length_take|].
  subst res. rewrite (auto_fill_found _ _ _ _ _ Hs Hgate). cbn [fst snd].
  split; [done|].
  intros i row Hi. cbn [ws_signups].
  fold signups. fold cands. fold r. fold promoted.
  unfold promoted, cands, signups.
  rewrite confirm_all_candidates by done.
  by rewrite list_lookup_fmap, Hi.
Qed.

(** C8 (removal is terminal).  A row whose status is removed is in no
    result of [read_signups]; [apply_priority_logic] leaves it as it is and
    does not rank it against the capacity; it is not among the candidates
    of [auto_fill_from_waitlist], which, with unique ids, leaves it as it
    is. *)
Theorem removed_is_terminal (now : Z) (st : sheet) (sid : string)
    (force : bool) (i : nat) (r : signup) :
  ws_signups st !! i = Some r →
  status r = "removed" →
  (∀ sid', r ∉ read_signups (ws_signups st) sid')
  ∧ ws_signups (apply_priority_logic st sid) !! i = Some r
  ∧ (r ∉ ranked st sid)
  ∧ (r ∉ candidates_of (read_signups (ws_signups st) sid))
  ∧ (NoDup (row_id <$> ws_signups st) →
     ws_signups (auto_fill_from_waitlist now st sid force).2 !! i = Some r).
Proof.
  intros Hi Hrem.
  assert (∀ sid', r ∉ read_signups (ws_signups st) sid') as Hout.
  { intros sid' [[_ Hact] _]%elem_of_read_signups. done. }
  split; [done|]. split; [|split; [|split]].
  - destruct (get_session_by_id st sid) as [s|] eqn:Hs.
    + rewrite (apply_priority_logic_found _ _ _ Hs). cbn [ws_signups].
      rewrite list_lookup_fmap, Hi. simpl. unfold assign.
      rewrite decide_False; [done|]. by intros [_ ?].
    + unfold apply_priority_logic. by rewrite Hs.
  - rewrite ranked_perm. apply Hout.
  - rewrite candidates_of_perm.
    intros [_ Hin]%list_elem_of_filter. by apply (Hout sid).
  - intros Hnd. unfold auto_fill_from_waitlist.
    destruct (get_session_by_id st sid) as [s|] eqn:Hs; [|done].
    destruct (negb force && before_cutoff now (cutoff_utc s)); [done|].
    destruct (_ =? 0); [done|].
    rewrite promote_loop_spec. cbn [fst snd ws_signups].
    rewrite confirm_all_candidates by done.
    rewrite list_lookup_fmap, Hi. simpl.
    rewrite decide_False; [done|].
    intros (_ & [_ Hact] & _)%candidates_in_sheet. done.
Qed.

(** With unique ids every promotion adds one confirmed row. *)
Lemma promoted_confirmed_count ws sid n :
  NoDup (row_id <$> ws) →
  let promoted := take n (candidates_of (read_signups ws sid)) in
  confirmed_count (confirm_all ws promoted) sid
  = (confirmed_count ws sid + length promoted)%nat.
Proof.
  intros Hnd promoted.
  set (cands := candidates_of (read_signups ws sid)).
  set (rest := drop n cands).
  set (g := λ row, if decide (row ∈ promoted)
                   then set_status "confirmed" row else row).
  assert (∀ x, x ∈ promoted → active_in sid x ∧ ¬ is_confirmed x) as Hprom.
  { intros x Hx. apply candidates_in_sheet in Hx. tauto. }
  assert (NoDup (promoted ++ rest)) as Hsplit.
  { unfold promoted, rest. fold cands. rewrite take_drop.
    unfold cands. rewrite candidates_of_perm.
    apply NoDup_filter, NoDup_filter. by eapply NoDup_fmap_1. }
  apply NoDup_app in Hsplit as (_ & Hdisj & _).
  assert (confirm_all ws promoted = g <$> ws) as ->
    by apply (confirm_all_candidates ws sid n Hnd).
  unfold confirmed_count. unfold read_signups at 1.
  rewrite filter_fmap_same; cycle 1.
  { intros x. unfold g. case_decide as Hx; [|done].
    destruct (Hprom x Hx) as [[Hsid Hst] _].
    unfold active_in. simpl. split; intros _; split; done. }
  fold (read_signups ws sid).
  set (act := read_signups ws sid).
  assert (act ≡ₚ filter is_confirmed act ++ (promoted ++ rest)) as Hact.
  { unfold promoted, rest. rewrite take_drop. unfold cands.
    rewrite candidates_of_perm. fold act.
    by rewrite filter_app_complement. }
  rewrite Hact at 1.
  rewrite !fmap_app, !filter_app, !length_app.
  assert (g <$> filter is_confirmed act = filter is_confirmed act) as ->.
  { rewrite <- (list_fmap_id (filter is_confirmed act)) at 2.
    apply list_fmap_ext. intros i x Hx. simpl.
    apply list_elem_of_lookup_2, list_elem_of_filter in Hx as [Hc _].
    unfold g. rewrite decide_False; [done|].
    intros Hp. by destruct (Hprom x Hp) as [_ Hn]. }
  rewrite (filter_all is_confirmed (filter is_confirmed act)); cycle 1.
  { apply Forall_forall. by intros x [? _]%list_elem_of_filter. }
  rewrite (filter_all is_confirmed (g <$> promoted)); cycle 1.
  { apply Forall_fmap, Forall_forall. intros x Hx. simpl.
    unfold g. by rewrite decide_True. }
  rewrite (filter_none is_confirmed (g <$> rest)); cycle 1.
  { apply Forall_fmap, Forall_forall. intros x Hx. simpl.
    unfold g. rewrite decide_False by (intros Hp; by apply (Hdisj x Hp)).
    assert (x ∈ cands) as Hc.
    { unfold rest in Hx. by apply (subseteq_drop n cands). }
    unfold cands in Hc. rewrite candidates_of_perm in Hc.
    by apply list_elem_of_filter in Hc as [? _]. }
  rewrite length_fmap. simpl. lia.
Qed.

(** C1, amended.  Past its gate, the second component returned by
    [auto_fill_from_waitlist] is the number of places left open:
    [max 0 (capacity - confirmed before)] minus the number promoted, which
    with unique ids is [max 0 (capacity - confirmed after)].  It is not the
    length of the waitlist. *)
Theorem auto_fill_returns_open_places (now : Z) (st : sheet) (sid : string)
    (s : session) (force : bool) :
  get_session_by_id st sid = Some s →
  negb force && before_cutoff now (cutoff_utc s) = false →
  let res := auto_fill_from_waitlist now st sid force in
  res.1.2
  = Z.max 0 (capacity s - Z.of_nat (confirmed_count (ws_signups st) sid))
    - res.1.1
  ∧ (NoDup (row_id <$> ws_signups st) →
     res.1.2
     = Z.max 0 (capacity s
                - Z.of_nat (confirmed_count (ws_signups res.2) sid))).
Proof.
  intros Hs Hgate res. subst res.
  rewrite (auto_fill_found _ _ _ _ _ Hs Hgate). cbn [fst snd ws_signups].
  split; [done|]. intros Hnd.
  rewrite promoted_confirmed_count by done.
  rewrite length_take. unfold remaining_of.
  fold (confirmed_count (ws_signups st) sid). lia.
Qed.

(** * The properties on the sample sheets *)

(** Capacity 2; core Alice, core Bob, outsider Cara, in this order. *)
Example scenario_cores_first :
  (λ r, (name r, status r)) <$>
    ws_signups (register "3" "2024-05-01T10:00:03" "Cara" "outsider"
                 (register "2" "2024-05-01T10:00:02" "Bob" "core"
                   (register "1" "2024-05-01T10:00:01" "Alice" "core"
                     (empty_sheet 2))))
  = [("Alice", "confirmed"); ("Bob", "confirmed"); ("Cara", "waitlist")].
Proof. reflexivity. Qed.

(** Capacity 1; outsider Dan registers before core Eve. *)
Example scenario_core_beats_earlier_outsider :
  (λ r, (name r, status r)) <$>
    ws_signups (register "2" "2024-05-01T10:00:02" "Eve" "core"
                 (register "1" "2024-05-01T10:00:01" "Dan" "outsider"
                   (empty_sheet 1)))
  = [("Dan", "waitlist"); ("Eve", "confirmed")].
Proof. reflexivity. Qed.

(** Capacity 1; Alice confirmed, Bob waiting; Alice is removed and the
    fill is forced. *)
Example scenario_fill_after_removal :
  let st := register "2" "2024-05-01T10:00:02" "Bob" "outsider"
              (register "1" "2024-05-01T10:00:01" "Alice" "core"
                (empty_sheet 1)) in
  let st' := Sheet (ws_sessions st)
                   (update_signup_status (ws_signups st) "1" "removed") in
  (auto_fill_from_waitlist 0 st' "s1" true).1 = (1, 0)
  ∧ (λ r, (name r, status r)) <$>
      ws_signups (auto_fill_from_waitlist 0 st' "s1" true).2
    = [("Alice", "removed"); ("Bob", "confirmed")].
Proof. split; reflexivity. Qed.

Example sample_recompute :
  status <$> ws_signups (apply_priority_logic sample_sheet "s1")
  = ["waitlist"; "confirmed"; "removed"; "confirmed"].
Proof. reflexivity. Qed.

Example open_fill :
  (auto_fill_from_waitlist 0 open_sheet "s1" true).1 = (1, 0)
  ∧ status <$> ws_signups (auto_fill_from_waitlist 0 open_sheet "s1" true).2
    = ["confirmed"; "waitlist"; "confirmed"; "removed"].
Proof. split; reflexivity. Qed.

(** C1, as stated, fails: on [open_sheet] a forced fill promotes one row and
    returns [0] as second component while one active row is still waiting. *)
Lemma auto_fill_second_is_not_waitlist_length :
  get_session_by_id open_sheet "s1" = Some sample_session
  ∧ (auto_fill_from_waitlist 0 open_sheet "s1" true).1 = (1, 0)
  ∧ waitlist_count
      (ws_signups (auto_fill_from_waitlist 0 open_sheet "s1" true).2) "s1"
    = 1%nat
  ∧ (auto_fill_from_waitlist 0 open_sheet "s1" true).1.2
    ≠ Z.of_nat
        (waitlist_count
           (ws_signups (auto_fill_from_waitlist 0 open_sheet "s1" true).2)
           "s1").
Proof. vm_compute. repeat split; discriminate. Qed.

Lemma auto_fill_returns_open_places_witness :
  (auto_fill_from_waitlist 0 open_sheet "s1" true).1.2
  = Z.max 0 (capacity sample_session
             - Z.of_nat (confirmed_count (ws_signups open_sheet) "s1"))
    - (auto_fill_from_waitlist 0 open_sheet "s1" true).1.1
  ∧ (auto_fill_from_waitlist 0 open_sheet "s1" true).1.2
    = Z.max 0
        (capacity sample_session
         - Z.of_nat
             (confirmed_count
                (ws_signups (auto_fill_from_waitlist 0 open_sheet "s1" true).2)
                "s1")).
Proof.
  destruct (auto_fill_returns_open_places 0 open_sheet "s1" sample_session
              true eq_refl eq_refl) as [H1 H2].
  split; [exact H1|]. apply H2. by_computation.
Defined.

Lemma recompute_confirms_first_capacity_witness :
  ranked sample_sheet "s1" ≡ₚ read_signups (ws_signups sample_sheet) "s1"
  ∧ StronglySorted core_then_time (ranked sample_sheet "s1")
  ∧ filter is_confirmed
      (read_signups (ws_signups (apply_priority_logic sample_sheet "s1")) "s1")
      ≡ₚ set_status "confirmed" <$> take 2 (ranked sample_sheet "s1")
  ∧ filter (λ r, ¬ is_confirmed r)
      (read_signups (ws_signups (apply_priority_logic sample_sheet "s1")) "s1")
      ≡ₚ set_status "waitlist" <$> drop 2 (ranked sample_sheet "s1").
Proof.
  apply (recompute_confirms_first_capacity sample_sheet "s1" sample_session);
    [reflexivity | by_computation].
Defined.

Lemma confirmed_within_capacity_witness :
  Z.of_nat (confirmed_count
              (ws_signups (apply_priority_logic sample_sheet "s1")) "s1") ≤ 2
  ∧ Z.of_nat (confirmed_count
                (ws_signups (auto_fill_from_waitlist 0 open_sheet "s1" true).2)
                "s1") ≤ 2.
Proof.
  split.
  - destruct (confirmed_within_capacity 0 sample_sheet "s1" sample_session
                true eq_refl) as [H _].
    apply H; [vm_compute; discriminate | by_computation].
  - destruct (confirmed_within_capacity 0 open_sheet "s1" sample_session
                true eq_refl) as [_ H].
    apply H. vm_compute. discriminate.
Defined.

Lemma cutoff_gates_promotion_witness :
  auto_fill_from_waitlist 999 open_sheet "s1" false = (0, 0, open_sheet)
  ∧ (auto_fill_from_waitlist 1000 open_sheet "s1" false).1.1 = 1
  ∧ ws_signups (auto_fill_from_waitlist 1000 open_sheet "s1" false).2
      !! 2%nat
    = Some (mk "c" "Cara" "outsider" "2024-05-01T10:00:00" "confirmed")
  ∧ ws_signups (auto_fill_from_waitlist 1000 open_sheet "s1" false).2
      !! 1%nat
    = Some (mk "b" "Bob" "outsider" "2024-05-01T11:00:00" "waitlist").
Proof.
  split.
  - destruct (cutoff_gates_promotion 999 open_sheet "s1" sample_session 1000
                false eq_refl eq_refl) as [H _].
    apply H; [reflexivity | lia].
  - destruct (cutoff_gates_promotion 1000 open_sheet "s1" sample_session 1000
                false eq_refl eq_refl) as [_ H].
    destruct H as (Hn & _ & _ & _ & Hrows); [right; lia|].
    specialize (Hrows ltac:(by_computation)).
    split; [exact Hn|]. split.
    + exact (Hrows 2%nat _ eq_refl).
    + exact (Hrows 1%nat _ eq_refl).
Defined.

Lemma duplicate_name_rejected_witness :
  append_signup ascii_ops "n" "2024-05-02T00:00:00" sample_sheet "s1" " eve " "outsider"
    None
  = (false, " eve  is already listed for this session.", sample_sheet).
Proof.
  destruct (duplicate_name_rejected ascii_ops "n" "2024-05-02T00:00:00" sample_sheet
              "s1" " eve " "outsider" None) as [[H1 H2] H3].
  - exists (mk "b" "Eve" "core" "2024-05-01T11:00:00" "waitlist").
    split; [by_computation | reflexivity].
  - specialize (H3 ltac:(vm_compute; discriminate) ltac:(right; reflexivity)).
    destruct (append_signup _ _ _ _ _ _ _ _) as [[ok msg] st'].
    simpl in *. by subst.
Defined.

Lemma promotion_takes_first_candidates_witness :
  (auto_fill_from_waitlist 0 open_sheet "s1" true).1.1 = 1
  ∧ ws_signups (auto_fill_from_waitlist 0 open_sheet "s1" true).2 !! 2%nat
    = Some (mk "c" "Cara" "outsider" "2024-05-01T10:00:00" "confirmed")
  ∧ ws_signups (auto_fill_from_waitlist 0 open_sheet "s1" true).2 !! 1%nat
    = Some (mk "b" "Bob" "outsider" "2024-05-01T11:00:00" "waitlist").
Proof.
  destruct (promotion_takes_first_candidates 0 open_sheet "s1" sample_session
              true eq_refl eq_refl ltac:(by_computation)
              ltac:(vm_compute; reflexivity))
    as (_ & _ & _ & Hn & Hrows).
  split; [exact Hn|]. split.
  - exact (Hrows 2%nat _ eq_refl).
  - exact (Hrows 1%nat _ eq_refl).
Defined.

Lemma removed_is_terminal_witness :
  (removed_row ∉ read_signups (ws_signups open_sheet) "s1")
  ∧ ws_signups (apply_priority_logic open_sheet "s1") !! 3%nat
    = Some removed_row
  ∧ (removed_row ∉ ranked open_sheet "s1")
  ∧ (removed_row ∉ candidates_of (read_signups (ws_signups open_sheet) "s1"))
  ∧ ws_signups (auto_fill_from_waitlist 0 open_sheet "s1" true).2 !! 3%nat
    = Some removed_row.
Proof.
  destruct (removed_is_terminal 0 open_sheet "s1" true 3 removed_row
              eq_refl eq_refl) as (H1 & H2 & H3 & H4 & H5).
  split; [exact (H1 "s1")|]. split; [exact H2|]. split; [exact H3|].
  split; [exact H4|]. apply H5. by_computation.
Defined.

Lemma update_unknown_id_noop_witness :
  update_signup_status (ws_signups open_sheet) "zz" "removed"
  = ws_signups open_sheet.
Proof. apply update_unknown_id_noop. by_computation. Defined.

Lemma recompute_frame_witness :
  get_session_by_id mixed_sheet "s1"
  = Some (Session "s1" "2024-06-01" 1 (Some 1000) "Weekly Badminton" "")
  ∧ ws_sessions (apply_priority_logic mixed_sheet "s1")
    = ws_sessions mixed_sheet
  ∧ ws_signups (apply_priority_logic mixed_sheet "s1") !! 0%nat
    = Some (Signup "a" "s1" "Ann" "core" "" "2024-05-01T09:00:00" "confirmed")
  ∧ ws_signups (apply_priority_logic mixed_sheet "s1") !! 1%nat
    = Some (Signup "b" "s2" "Bob" "core" "" "2024-05-01T09:30:00" "waitlist")
  ∧ ws_signups (apply_priority_logic mixed_sheet "s1") !! 3%nat
    = Some (Signup "d" "s2" "Dan" "outsider" "Bob" "2024-05-01T10:30:00"
                   "confirmed").
Proof.
  destruct (recompute_frame mixed_sheet "s1") as (Hsess & _ & _ & Hother).
  split; [reflexivity|]. split; [exact Hsess|]. split; [reflexivity|].
  split; apply Hother; try reflexivity; vm_compute; discriminate.
Defined.

(** * Further properties of the operations *)

(** ** Sessions *)

Lemma date_ge_total a b : date_ge a b = false → date_ge b a = true.
Proof.
  unfold date_ge. intros Hab.
  destruct (String.leb_total (session_date a) (session_date b)) as [H|H];
    congruence.
Qed.

Lemma date_ge_trans a b c :
  date_ge a b = true → date_ge b c = true → date_ge a c = true.
Proof. unfold date_ge. intros Hab Hbc. by eapply string_leb_trans. Qed.

(** A stable sort commutes with taking a sub-list by a predicate. *)
Section sort_filter.
Context {A : Type} (le : A → A → bool).
Context (P : A → Prop) `{!∀ x, Decision (P x)}.
Hypothesis le_total : ∀ x y, le x y = false → le y x = true.
Hypothesis le_trans : ∀ x y z, le x y = true → le y z = true → le x z = true.

Lemma list_sort_strongly_sorted (l : list A) :
  StronglySorted (leR le) (list_sort le l).
Proof.
  assert (Transitive (leR le)) as Htr by (intros a b c; apply le_trans).
  apply Sorted_StronglySorted; [exact Htr|]. by apply list_sort_sorted.
Qed.

Lemma insert_by_below x l :
  Forall (λ y, le x y = true) l → insert_by le x l = x :: l.
Proof. destruct 1 as [|y l Hy _]; simpl; [done|]. by rewrite Hy. Qed.

Lemma filter_insert_by_out x l :
  ¬ P x → filter P (insert_by le x l) = filter P l.
Proof.
  intros Hx. induction l as [|y l IH]; simpl.
  - by rewrite filter_cons_False.
  - destruct (le x y).
    + by rewrite filter_cons_False.
    + by rewrite !filter_cons, IH.
Qed.

Lemma filter_insert_by_in x l :
  P x → StronglySorted (leR le) l →
  filter P (insert_by le x l) = insert_by le x (filter P l).
Proof.
  intros Hx. induction 1 as [|y l Hs IH Hy]; simpl.
  - by rewrite filter_cons_True.
  - destruct (le x y) eqn:Hxy.
    + rewrite filter_cons_True by done. symmetry. apply insert_by_below.
      apply Forall_forall. intros z Hz.
      apply list_elem_of_filter in Hz as [_ Hz].
      apply elem_of_cons in Hz as [->|Hz]; [done|].
      rewrite Forall_forall in Hy. eapply le_trans; [exact Hxy|].
      by apply Hy.
    + rewrite !filter_cons. destruct (decide (P y)).
      * simpl. by rewrite Hxy, IH.
      * done.
Qed.

Lemma list_sort_filter (l : list A) :
  filter P (list_sort le l) = list_sort le (filter P l).
Proof.
  induction l as [|x l IH]; [done|].
  change (list_sort le (x :: l)) with (insert_by le x (list_sort le l)).
  rewrite filter_cons. destruct (decide (P x)) as [Hx|Hx].
  - rewrite filter_insert_by_in by (done || apply list_sort_strongly_sorted).
    by rewrite IH.
  - by rewrite filter_insert_by_out.
Qed.
End sort_filter.

Lemma find_session_head sid l :
  find_session sid l = head (filter (λ s, sess_id s = sid) l).
Proof.
  induction l as [|s l IH]; [done|]. simpl. rewrite filter_cons.
  destruct (String.eqb_spec (sess_id s) sid) as [Heq|Hne].
  - by rewrite decide_True.
  - by rewrite decide_False.
Qed.

Lemma get_session_by_id_head st sid :
  get_session_by_id st sid
  = head (list_sort date_ge (filter (λ s, sess_id s = sid) (ws_sessions st))).
Proof.
  unfold get_session_by_id, read_sessions.
  rewrite find_session_head, list_sort_filter;
    [done | apply date_ge_total | apply date_ge_trans].
Qed.

Lemma head_list_sort_elem {A} (le : A → A → bool) (l : list A) x :
  head (list_sort le l) = Some x → x ∈ l.
Proof.
  intros Hx. rewrite <- (list_sort_perm le l).
  by apply head_Some_elem_of.
Qed.

(** X1.  [get_session_by_id] returns [None] exactly when no session row
    carries the id; a session it returns is a row of the sheet with that id,
    and when several rows carry the id it is one with the latest date. *)
Theorem get_session_by_id_spec (st : sheet) (sid : string) :
  (get_session_by_id st sid = None ↔ sid ∉ sess_id <$> ws_sessions st)
  ∧ (∀ s, get_session_by_id st sid = Some s →
       s ∈ ws_sessions st ∧ sess_id s = sid
       ∧ ∀ s', s' ∈ ws_sessions st → sess_id s' = sid →
           String.leb (session_date s') (session_date s) = true).
Proof.
  rewrite get_session_by_id_head.
  set (same := filter (λ s, sess_id s = sid) (ws_sessions st)).
  split.
  - rewrite head_None. split.
    + intros Hnil (s & Hs & Hin)%list_elem_of_fmap.
      assert (s ∈ list_sort date_ge same) as Hs'.
      { apply elem_of_list_sort, list_elem_of_filter. by split. }
      rewrite Hnil in Hs'. by apply elem_of_nil in Hs'.
    + intros Hout. destruct (list_sort date_ge same) as [|s l] eqn:Hl; [done|].
      assert (s ∈ same) as Hs.
      { apply (elem_of_list_sort date_ge). rewrite Hl. left. }
      apply list_elem_of_filter in Hs as [Hid Hs].
      destruct Hout. rewrite <- Hid. by apply list_elem_of_fmap_2.
  - intros s Hs.
    pose proof (head_list_sort_elem _ _ _ Hs) as Hin.
    apply list_elem_of_filter in Hin as [Hid Hin].
    split; [done|]. split; [done|].
    intros s' Hin' Hid'.
    apply head_Some in Hs as [l Hl].
    assert (s' ∈ s :: l) as Hs'.
    { rewrite <- Hl. apply elem_of_list_sort, list_elem_of_filter. by split. }
    apply elem_of_cons in Hs' as [->|Hs']; [apply string_leb_refl|].
    pose proof (list_sort_strongly_sorted date_ge date_ge_total date_ge_trans
                  same) as Hsorted.
    rewrite Hl in Hsorted. apply StronglySorted_inv in Hsorted as [_ Hall].
    rewrite Forall_forall in Hall. by apply (Hall s').
Qed.

(** X2.  [read_sessions] returns the session rows, each once, ordered from
    the latest date to the earliest. *)
Theorem read_sessions_newest_first (st : sheet) :
  read_sessions st ≡ₚ ws_sessions st
  ∧ StronglySorted
      (λ a b, String.leb (session_date b) (session_date a) = true)
      (read_sessions st).
Proof.
  split; [apply list_sort_perm|].
  apply (list_sort_strongly_sorted date_ge date_ge_total date_ge_trans).
Qed.

(** X3.  After [write_session] with an id that no session row carries,
    [get_session_by_id] finds the new session under that id; lookups of
    every other id give what they gave before, and the signups are left as
    they were. *)
Theorem write_session_lookup (sid : string) (st : sheet) (date : string)
    (cap cutoff : Z) (ttl nts : string) :
  sid ∉ sess_id <$> ws_sessions st →
  let res := write_session sid st date cap cutoff ttl nts in
  res.1 = sid
  ∧ get_session_by_id res.2 sid
    = Some (Session sid date cap (Some cutoff) ttl nts)
  ∧ (∀ sid', sid' ≠ sid →
       get_session_by_id res.2 sid' = get_session_by_id st sid')
  ∧ ws_signups res.2 = ws_signups st.
Proof.
  intros Hfresh res. subst res. unfold write_session. cbn [fst snd].
  split; [done|]. rewrite get_session_by_id_head. cbn [ws_sessions].
  split; [|split; [|done]].
  - rewrite filter_app, (filter_none _ (ws_sessions st)).
    + rewrite filter_cons_True by done. done.
    + apply Forall_forall. intros s Hs Hid. apply Hfresh.
      rewrite <- Hid. by apply list_elem_of_fmap_2.
  - intros sid' Hne. rewrite !get_session_by_id_head. cbn [ws_sessions].
    rewrite filter_app, filter_cons_False, filter_nil, app_nil_r; [done|].
    simpl. congruence.
Qed.

(** ** [update_signup_status] on arbitrary sheets *)

Lemma first_mark_app x v (pre post : list signup) (r : signup) :
  x ∉ row_id <$> pre → row_id r = x →
  first_mark x v (pre ++ r :: post) = pre ++ set_status v r :: post.
Proof.
  intros Hpre Hr. induction pre as [|p pre IH]; simpl.
  - by rewrite (proj2 (String.eqb_eq _ _) Hr).
  - rewrite fmap_cons, not_elem_of_cons in Hpre. destruct Hpre as [Hp Hpre].
    destruct (String.eqb_spec (row_id p) x); [congruence|].
    by rewrite IH.
Qed.

Lemma first_mark_twice x v l :
  first_mark x v (first_mark x v l) = first_mark x v l.
Proof.
  induction l as [|r l IH]; [done|]. simpl.
  destruct (String.eqb (row_id r) x) eqn:Hr; simpl; rewrite Hr; [done|].
  by rewrite IH.
Qed.

(** X4.  [update_signup_status] writes the status cell of the first row
    that carries the id and nothing else: rows before it, and rows after it
    even with the same id, stay as they were. *)
Theorem update_writes_first_match (pre post : list signup) (r : signup)
    (x v : string) :
  x ∉ row_id <$> pre → row_id r = x →
  update_signup_status (pre ++ r :: post) x v
  = pre ++ set_status v r :: post.
Proof.
  intros Hpre Hr. rewrite update_signup_status_first.
  by apply first_mark_app.
Qed.

(** X5.  Repeating [update_signup_status] with the same id and status
    changes nothing more, and the call never changes the ids or the number
    of rows. *)
Theorem update_signup_status_again (ws : list signup) (x v : string) :
  update_signup_status (update_signup_status ws x v) x v
  = update_signup_status ws x v
  ∧ row_id <$> update_signup_status ws x v = row_id <$> ws
  ∧ length (update_signup_status ws x v) = length ws.
Proof.
  rewrite !update_signup_status_first. split; [apply first_mark_twice|].
  split; [apply first_mark_row_id|].
  rewrite <- (length_fmap row_id (first_mark x v ws)), first_mark_row_id.
  apply length_fmap.
Qed.

Lemma read_signups_mark_removed x sid ws :
  read_signups (mark x "removed" <$> ws) sid
  = filter (λ r, row_id r ≠ x) (read_signups ws sid).
Proof.
  unfold read_signups. induction ws as [|r ws IH]; [done|].
  rewrite fmap_cons, !filter_cons, IH.
  destruct (decide (row_id r = x)) as [Heq|Hne].
  - assert (mark x "removed" r = set_status "removed" r) as ->.
    { unfold mark. by rewrite (proj2 (String.eqb_eq _ _) Heq). }
    rewrite (decide_False (P:=active_in sid (set_status "removed" r)))
      by (intros [_ Hst]; by apply Hst).
    destruct (decide (active_in sid r)); [|done].
    rewrite filter_cons_False; [done|]. intros Hx. by apply Hx.
  - assert (mark x "removed" r = r) as ->.
    { unfold mark. by rewrite (proj2 (String.eqb_neq _ _) Hne). }
    destruct (decide (active_in sid r)); [|done].
    by rewrite filter_cons_True.
Qed.

(** X6.  With unique ids, setting a signup to removed takes exactly that
    row out of the active signups of its session; every other row keeps its
    status, so a waiting signup is not moved up by the removal. *)
Theorem removal_drops_one_row (ws : list signup) (x sid : string) :
  NoDup (row_id <$> ws) →
  read_signups (update_signup_status ws x "removed") sid
  = filter (λ r, row_id r ≠ x) (read_signups ws sid)
  ∧ (∀ i r, ws !! i = Some r → row_id r ≠ x →
       update_signup_status ws x "removed" !! i = Some r).
Proof.
  intros Hnd. rewrite update_signup_status_nodup by done.
  split; [apply read_signups_mark_removed|].
  intros i r Hi Hne. rewrite list_lookup_fmap, Hi. simpl. unfold mark.
  destruct (String.eqb_spec (row_id r) x); [congruence|done].
Qed.

(** ** The state left by [apply_priority_logic] *)

Lemma recompute_counts st sid s :
  get_session_by_id st sid = Some s →
  NoDup (row_id <$> read_signups (ws_signups st) sid) →
  let n := length (read_signups (ws_signups st) sid) in
  let after := ws_signups (apply_priority_logic st sid) in
  confirmed_count after sid = Nat.min (Z.to_nat (capacity s)) n
  ∧ waitlist_count after sid = (n - Z.to_nat (capacity s))%nat.
Proof.
  intros Hs Hnd n after. subst n after.
  destruct (recompute_partition st sid s Hs Hnd) as [Hc Hw].
  unfold confirmed_count, waitlist_count. rewrite Hc, Hw.
  rewrite !length_fmap, length_take, length_drop.
  unfold ranked. by rewrite list_sort_length.
Qed.

Lemma get_session_after_recompute st sid sid' :
  get_session_by_id (apply_priority_logic st sid) sid'
  = get_session_by_id st sid'.
Proof.
  apply get_session_by_id_sessions.
  unfold apply_priority_logic. by destruct (get_session_by_id st sid).
Qed.

(** X7.  After [apply_priority_logic] on an existing session every active
    row of the session has status confirmed or waitlist, whatever the status
    cells held before. *)
Theorem recompute_status_domain (st : sheet) (sid : string) (s : session)
    (r : signup) :
  get_session_by_id st sid = Some s →
  r ∈ read_signups (ws_signups (apply_priority_logic st sid)) sid →
  status r = "confirmed" ∨ status r = "waitlist".
Proof.
  intros Hs. rewrite (apply_priority_logic_found _ _ _ Hs). cbn [ws_signups].
  rewrite read_signups_assign.
  intros (r0 & -> & Hr0)%list_elem_of_fmap.
  apply elem_of_read_signups in Hr0 as [Hact _].
  unfold assign. rewrite decide_True by done.
  unfold desired_status. case_decide; [by left|by right].
Qed.

(** X8.  With unique ids, after [apply_priority_logic] every confirmed row
    of the session ranks at or before every waiting row: no core signup
    waits while a signup of another role is confirmed, and within one role
    no signup waits while a later one is confirmed. *)
Theorem recompute_respects_ranking (st : sheet) (sid : string) (s : session)
    (a b : signup) :
  get_session_by_id st sid = Some s →
  NoDup (row_id <$> read_signups (ws_signups st) sid) →
  a ∈ read_signups (ws_signups (apply_priority_logic st sid)) sid →
  b ∈ read_signups (ws_signups (apply_priority_logic st sid)) sid →
  is_confirmed b → ¬ is_confirmed a →
  core_then_time b a ∧ (role a = "core" → role b = "core").
Proof.
  intros Hs Hnd Ha Hb Hcb Hwa.
  destruct (recompute_partition st sid s Hs Hnd) as [Hc Hw].
  assert (b ∈ set_status "confirmed"
            <$> take (Z.to_nat (capacity s)) (ranked st sid)) as Hb'.
  { rewrite <- Hc. apply list_elem_of_filter. by split. }
  assert (a ∈ set_status "waitlist"
            <$> drop (Z.to_nat (capacity s)) (ranked st sid)) as Ha'.
  { rewrite <- Hw. apply list_elem_of_filter. by split. }
  apply list_elem_of_fmap in Hb' as (b0 & -> & Hb0).
  apply list_elem_of_fmap in Ha' as (a0 & -> & Ha0).
  pose proof (ranked_sorted st sid) as Hsorted.
  rewrite <- (take_drop (Z.to_nat (capacity s)) (ranked st sid)) in Hsorted.
  pose proof (StronglySorted_app_1_elem_of _ _ _ _ _ Hsorted Hb0 Ha0) as Hba.
  assert (core_then_time (set_status "confirmed" b0)
            (set_status "waitlist" a0)) as Hrank by exact Hba.
  split; [exact Hrank|].
  unfold core_then_time in Hrank. simpl in *. intros Hcore.
  destruct Hrank as [[? ?]|[Hiff _]]; [done|by apply Hiff].
Qed.

(** X9.  With unique ids, [apply_priority_logic] confirms as many active
    rows as the capacity allows: the confirmed rows number
    [min capacity active], so a signup waits only when every place is
    taken. *)
Theorem recompute_fills_places (st : sheet) (sid : string) (s : session) :
  get_session_by_id st sid = Some s →
  NoDup (row_id <$> read_signups (ws_signups st) sid) →
  let n := length (read_signups (ws_signups st) sid) in
  let after := ws_signups (apply_priority_logic st sid) in
  confirmed_count after sid = Nat.min (Z.to_nat (capacity s)) n
  ∧ (confirmed_count after sid + waitlist_count after sid = n)%nat
  ∧ (0 < waitlist_count after sid →
     confirmed_count after sid = Z.to_nat (capacity s))%nat.
Proof.
  intros Hs Hnd n after.
  destruct (recompute_counts st sid s Hs Hnd) as [Hc Hw].
  fold n after in Hc, Hw. rewrite Hc, Hw. lia.
Qed.

(** X10.  With unique ids, a fill that follows a recompute has nothing to
    do: [auto_fill_from_waitlist] on the state left by
    [apply_priority_logic] promotes no one and returns that state. *)
Theorem fill_after_recompute_is_idle (now : Z) (st : sheet) (sid : string)
    (s : session) (force : bool) :
  get_session_by_id st sid = Some s →
  NoDup (row_id <$> read_signups (ws_signups st) sid) →
  let st' := apply_priority_logic st sid in
  (auto_fill_from_waitlist now st' sid force).1.1 = 0
  ∧ (auto_fill_from_waitlist now st' sid force).2 = st'.
Proof.
  intros Hs Hnd st'.
  assert (get_session_by_id st' sid = Some s) as Hs'.
  { unfold st'. by rewrite get_session_after_recompute. }
  destruct (negb force && before_cutoff now (cutoff_utc s)) eqn:Hgate.
  { unfold auto_fill_from_waitlist. by rewrite Hs', Hgate. }
  rewrite (auto_fill_found _ _ _ _ _ Hs' Hgate). cbn [fst snd].
  destruct (recompute_counts st sid s Hs Hnd) as [Hc Hw].
  fold st' in Hc, Hw.
  set (n := length (read_signups (ws_signups st) sid)) in *.
  assert (take (Z.to_nat (remaining_of (capacity s)
                            (read_signups (ws_signups st') sid)))
               (candidates_of (read_signups (ws_signups st') sid)) = [])
    as ->.
  { destruct (decide (Z.to_nat (capacity s) ≤ n)%nat) as [Hfull|Hfree].
    - replace (Z.to_nat _) with 0%nat; [done|].
      unfold remaining_of. fold (confirmed_count (ws_signups st') sid). lia.
    - assert (candidates_of (read_signups (ws_signups st') sid) = []) as ->;
        [|by rewrite take_nil].
      apply length_zero_iff_nil.
      rewrite candidates_of_perm.
      fold (waitlist_count (ws_signups st') sid). lia. }
  simpl. split; [done|]. by destruct st'.
Qed.

(** ** [ascii_strip] on ASCII text *)

Lemma append_cons (a : ascii) (s t : string) :
  String a s +:+ t = String a (s +:+ t).
Proof. reflexivity. Qed.

Lemma append_empty_r (s : string) : s +:+ "" = s.
Proof.
  induction s as [|a s IH]; [done|]. by rewrite append_cons, IH.
Qed.

Lemma rev_app_rev_app (s t u : string) :
  String.rev_app (String.rev_app s t) u = String.rev_app t (s +:+ u).
Proof.
  revert t u. induction s as [|a s IH]; intros t u; [done|].
  cbn [String.rev_app]. rewrite IH, append_cons. done.
Qed.

Lemma rev_rev (s : string) : String.rev (String.rev s) = s.
Proof.
  unfold String.rev. rewrite rev_app_rev_app. exact (append_empty_r s).
Qed.

Lemma rev_app_append (w u c : string) :
  String.rev_app (w +:+ u) c = String.rev_app u (String.rev_app w c).
Proof.
  revert c. induction w as [|a w IH]; intros c; [done|].
  rewrite append_cons. cbn [String.rev_app]. apply IH.
Qed.

Lemma lstrip_suffix (s : string) : ∃ w, s = w +:+ ascii_lstrip s.
Proof.
  induction s as [|a s [w IH]]; [by exists ""|]. cbn [ascii_lstrip].
  destruct (ascii_space a).
  - exists (String a w). by rewrite append_cons, <- IH.
  - by exists "".
Qed.

Lemma lstrip_fixed (s : string) :
  match s with String a _ => ascii_space a = false | EmptyString => True end →
  ascii_lstrip s = s.
Proof. destruct s as [|a s]; simpl; [done|]. by intros ->. Qed.

Lemma lstrip_starts (s : string) :
  match ascii_lstrip s with
  | String a _ => ascii_space a = false
  | EmptyString => True
  end.
Proof.
  induction s as [|a s IH]; simpl; [done|].
  destruct (ascii_space a) eqn:Ha; [exact IH|exact Ha].
Qed.

Lemma lstrip_lstrip (s : string) : ascii_lstrip (ascii_lstrip s) = ascii_lstrip s.
Proof. apply lstrip_fixed, lstrip_starts. Qed.

Lemma rev_app_starts (u c c' : string) :
  u ≠ "" →
  match String.rev_app u c with
  | String a _ => ascii_space a = false
  | EmptyString => True
  end →
  match String.rev_app u c' with
  | String a _ => ascii_space a = false
  | EmptyString => True
  end.
Proof.
  revert c c'. induction u as [|a u IH]; intros c c' Hu; [done|]. simpl.
  destruct u as [|b u]; [done|]. by apply IH.
Qed.

Lemma ascii_strip_strip (s : string) : ascii_strip (ascii_strip s) = ascii_strip s.
Proof.
  unfold ascii_strip.
  set (t := ascii_lstrip s). set (u := ascii_lstrip (String.rev t)).
  assert (ascii_lstrip (String.rev u) = String.rev u) as ->.
  { apply lstrip_fixed. destruct (decide (u = "")) as [->|Hu]; [done|].
    destruct (lstrip_suffix (String.rev t)) as [w Hw]. fold u in Hw.
    pose proof (lstrip_starts s) as Ht. fold t in Ht.
    rewrite <- (rev_rev t), Hw in Ht. unfold String.rev in Ht at 1.
    rewrite rev_app_append in Ht.
    by apply (rev_app_starts u _ "") in Ht. }
  rewrite rev_rev. unfold u. by rewrite lstrip_lstrip.
Qed.

(** ** [append_signup] *)

(** The row that a successful [append_signup] adds, before the recompute. *)
Lemma append_signup_cases py new_id now_str st sid nm rl by_ :
  let res := append_signup py new_id now_str st sid nm rl by_ in
  let row := Signup new_id sid (strip py nm) rl
                    (strip py (default "" by_)) now_str "waitlist" in
  (res.1.1 = false ∧ res.2 = st)
  ∨ (res.1.1 = true
     ∧ strip py nm ≠ "" ∧ (rl = "core" ∨ rl = "outsider")
     ∧ (∀ r, r ∈ read_signups (ws_signups st) sid →
          name_key py r ≠ lower py (strip py nm))
     ∧ res.2 = apply_priority_logic
                 (Sheet (ws_sessions st) (ws_signups st ++ [row])) sid).
Proof.
  intros res row. subst res row. unfold append_signup.
  destruct (String.eqb_spec (strip py nm) "") as [Hb|Hb]; [by left|].
  destruct (String.eqb_spec rl "core") as [Hc|Hc];
    destruct (String.eqb_spec rl "outsider") as [Ho|Ho];
    cbn [negb orb]; try (by left).
  all: destruct (existsb _ _) eqn:Hdup; [by left|]; right.
  all: split; [done|]; split; [done|]; split; [tauto|]; split; [|done].
  all: intros r Hr Hkey.
  all: assert (existsb (λ s, String.eqb (lower py (strip py (name s)))
                               (lower py (strip py nm)))
                 (read_signups (ws_signups st) sid) = true) as Hex;
    [|congruence].
  all: apply existsb_exists; exists r;
    split; [by apply list_elem_of_In|by apply String.eqb_eq].
Qed.

Lemma find_session_None sid l :
  find_session sid l = None ↔ sid ∉ sess_id <$> l.
Proof.
  induction l as [|s l IH]; simpl.
  - split; [intros _; apply not_elem_of_nil|done].
  - rewrite not_elem_of_cons.
    destruct (String.eqb_spec (sess_id s) sid) as [Heq|Hne].
    + split; [done|]. by intros [? _].
    + rewrite IH. split; [intros ?; by split|by intros [_ ?]].
Qed.

Lemma get_session_by_id_None st sid :
  get_session_by_id st sid = None ↔ sid ∉ sess_id <$> ws_sessions st.
Proof.
  unfold get_session_by_id, read_sessions. rewrite find_session_None.
  by rewrite list_sort_perm.
Qed.

Lemma recompute_rows st sid :
  ws_signups (apply_priority_logic st sid) = ws_signups st
  ∨ ∃ T, ws_signups (apply_priority_logic st sid)
         = assign sid T <$> ws_signups st.
Proof.
  destruct (get_session_by_id st sid) as [s|] eqn:Hs.
  - right. eexists. by rewrite (apply_priority_logic_found _ _ _ Hs).
  - left. unfold apply_priority_logic. by rewrite Hs.
Qed.

Lemma recompute_sessions st sid :
  ws_sessions (apply_priority_logic st sid) = ws_sessions st.
Proof.
  unfold apply_priority_logic. by destruct (get_session_by_id st sid).
Qed.

Lemma assign_shape sid T r :
  (assign sid T r = r ∧ ¬ active_in sid r)
  ∨ (active_in sid r
     ∧ ∃ v, (v = "confirmed" ∨ v = "waitlist")
            ∧ assign sid T r = set_status v r).
Proof.
  unfold assign. case_decide; [right|by left]. split; [done|].
  unfold desired_status. case_decide; eexists; (split; [|done]); tauto.
Qed.

(** X11.  [append_signup] changes the sheet only when it reports success.
    A blank name is refused first, then a role other than core or
    outsider, each with its own message. *)
Theorem append_signup_refusals (py : str_ops) (new_id now_str : string)
    (st : sheet)
    (sid nm rl : string) (by_ : option string) :
  let res := append_signup py new_id now_str st sid nm rl by_ in
  (res.1.1 = false → res.2 = st)
  ∧ (strip py nm = "" → res = (false, "Name is required.", st))
  ∧ (strip py nm ≠ "" → rl ≠ "core" → rl ≠ "outsider" →
     res = (false, "Invalid role.", st)).
Proof.
  intros res. split; [|split].
  - intros Hfail. subst res.
    destruct (append_signup_cases py new_id now_str st sid nm rl by_)
      as [[_ ?]|[Hok _]]; [done|congruence].
  - intros Hb. subst res. unfold append_signup.
    by rewrite (proj2 (String.eqb_eq _ _) Hb).
  - intros Hb Hc Ho. subst res. unfold append_signup.
    rewrite (proj2 (String.eqb_neq _ _) Hb), (proj2 (String.eqb_neq _ _) Hc),
      (proj2 (String.eqb_neq _ _) Ho). done.
Qed.

(** X12.  A successful [append_signup] leaves the sessions as they were and
    adds exactly one row at the end of the signups: the new id, the session,
    the trimmed name, the role, the trimmed sponsor and the time, with
    status confirmed or waitlist.  Of the earlier rows only status cells can
    change, and rows of other sessions do not change at all. *)
Theorem append_signup_adds_one_row (py : str_ops) (new_id now_str : string)
    (st : sheet)
    (sid nm rl : string) (by_ : option string) :
  let res := append_signup py new_id now_str st sid nm rl by_ in
  res.1.1 = true →
  ws_sessions res.2 = ws_sessions st
  ∧ length (ws_signups res.2) = S (length (ws_signups st))
  ∧ (∃ v, (v = "confirmed" ∨ v = "waitlist")
          ∧ ws_signups res.2 !! length (ws_signups st)
            = Some (Signup new_id sid (strip py nm) rl
                           (strip py (default "" by_)) now_str v))
  ∧ (∀ i r, ws_signups st !! i = Some r →
       ∃ v, ws_signups res.2 !! i = Some (set_status v r))
  ∧ (∀ i r, ws_signups st !! i = Some r → session_id r ≠ sid →
       ws_signups res.2 !! i = Some r).
Proof.
  intros res Hok. subst res.
  destruct (append_signup_cases py new_id now_str st sid nm rl by_)
    as [[Hf _]|(_ & _ & _ & _ & Hres)]; [congruence|].
  rewrite Hres. clear Hres Hok.
  set (row := Signup new_id sid (strip py nm) rl
                     (strip py (default "" by_)) now_str "waitlist").
  set (st1 := Sheet (ws_sessions st) (ws_signups st ++ [row])).
  split; [apply (recompute_sessions st1)|].
  assert (∀ i r, ws_signups st1 !! i = Some r →
            ∃ v, ((v = "confirmed" ∨ v = "waitlist") ∨ v = status r)
                 ∧ (session_id r ≠ sid → v = status r)
                 ∧ ws_signups (apply_priority_logic st1 sid) !! i
                   = Some (set_status v r)) as Hrows.
  { intros i r Hi. destruct (recompute_rows st1 sid) as [->|[T ->]].
    - exists (status r). rewrite set_status_same. by repeat split; [right|..].
    - rewrite list_lookup_fmap, Hi. simpl.
      destruct (assign_shape sid T r) as [[-> Hn]|[[Hsid _] (v & Hv & ->)]].
      + exists (status r). rewrite set_status_same.
        by repeat split; [right|..].
      + exists v. by repeat split; [left|..]. }
  split; [|split; [|split]].
  - destruct (recompute_rows st1 sid) as [->|[T ->]];
      rewrite ?length_fmap; simpl; rewrite length_app; simpl; lia.
  - destruct (Hrows (length (ws_signups st)) row) as (v & Hv & _ & Hlook).
    { simpl. by rewrite lookup_app_r, Nat.sub_diag. }
    exists v. split; [|exact Hlook].
    destruct Hv as [Hv| ->]; [done|]. by right.
  - intros i r Hi. destruct (Hrows i r) as (v & _ & _ & Hlook).
    { simpl. by apply lookup_app_l_Some. }
    by exists v.
  - intros i r Hi Hne. destruct (Hrows i r) as (v & _ & Hv & Hlook).
    { simpl. by apply lookup_app_l_Some. }
    rewrite Hlook, (Hv Hne). by rewrite set_status_same.
Qed.

Lemma read_signups_snoc ws sid' (row : signup) :
  read_signups (ws ++ [row]) sid'
  = read_signups ws sid' ++ (if decide (active_in sid' row) then [row] else []).
Proof.
  unfold read_signups. rewrite filter_app, filter_cons, filter_nil.
  by case_decide.
Qed.

Lemma existsb_none {A} (f : A → bool) (l : list A) :
  (∀ x, x ∈ l → f x = false) → existsb f l = false.
Proof.
  intros Hl. destruct (existsb f l) eqn:Hex; [|done].
  apply existsb_exists in Hex as (x & Hx & Hfx).
  apply list_elem_of_In in Hx. rewrite (Hl x Hx) in Hfx. done.
Qed.

(** X13.  [append_signup] does not check that the session exists: for an id
    that no session row carries, a valid name and role that collide with no
    active row under that id are accepted, the row is stored with status
    waitlist, and nothing else changes. *)
Theorem append_signup_unknown_session (py : str_ops) (new_id now_str : string)
    (st : sheet)
    (sid nm rl : string) (by_ : option string) :
  sid ∉ sess_id <$> ws_sessions st →
  strip py nm ≠ "" → rl = "core" ∨ rl = "outsider" →
  (∀ r, r ∈ read_signups (ws_signups st) sid →
     name_key py r ≠ lower py (strip py nm)) →
  append_signup py new_id now_str st sid nm rl by_
  = (true, "Added " +:+ nm +:+ " as " +:+ rl +:+ ".",
     Sheet (ws_sessions st)
           (ws_signups st
            ++ [Signup new_id sid (strip py nm) rl
                       (strip py (default "" by_)) now_str "waitlist"])).
Proof.
  intros Hsid Hb Hrole Hnew. unfold append_signup.
  rewrite (proj2 (String.eqb_neq _ _) Hb).
  assert (negb (String.eqb rl "core" || String.eqb rl "outsider") = false)
    as ->.
  { destruct Hrole as [-> | ->]; reflexivity. }
  rewrite existsb_none; cycle 1.
  { intros r Hr. apply String.eqb_neq. by apply Hnew. }
  f_equal. unfold apply_priority_logic.
  assert (get_session_by_id
            (Sheet (ws_sessions st)
               (ws_signups st
                ++ [Signup new_id sid (strip py nm) rl
                      (strip py (default "" by_)) now_str "waitlist"])) sid
          = None) as ->; [|done].
  by apply get_session_by_id_None.
Qed.

Lemma names_after_recompute py st sid sid' :
  name_key py <$> read_signups (ws_signups (apply_priority_logic st sid)) sid'
  = name_key py <$> read_signups (ws_signups st) sid'.
Proof.
  destruct (recompute_rows st sid) as [->|[T ->]]; [done|].
  rewrite read_signups_assign, <- list_fmap_compose.
  apply list_fmap_ext. intros i r _. simpl.
  unfold assign. by case_decide.
Qed.

(** X14.  Given that stripping a stripped string changes nothing, as is
    the case for [str.strip],
    [append_signup] keeps names unique: if no two active signups of a
    session share a name up to surrounding blanks and letter case before
    the call, none do after it, whether the call succeeds or not. *)
Theorem append_signup_keeps_names_unique (py : str_ops)
    (new_id now_str : string) (st : sheet) (sid nm rl : string)
    (by_ : option string) (sid' : string) :
  (∀ t, strip py (strip py t) = strip py t) →
  names_unique py (ws_signups st) sid' →
  names_unique py
    (ws_signups (append_signup py new_id now_str st sid nm rl by_).2) sid'.
Proof.
  intros Hstrip Huniq.
  destruct (append_signup_cases py new_id now_str st sid nm rl by_)
    as [[_ ->]|(_ & _ & _ & Hnew & ->)]; [done|].
  unfold names_unique in *. rewrite names_after_recompute. cbn [ws_signups].
  rewrite read_signups_snoc. case_decide as Hact.
  - destruct Hact as [Hsid _]. simpl in Hsid. subst sid'.
    rewrite fmap_app. apply NoDup_app. split; [done|].
    split; [|apply NoDup_singleton].
    intros k Hk Hrow. simpl in Hrow.
    apply list_elem_of_singleton in Hrow. subst k.
    apply list_elem_of_fmap in Hk as (r & Hkey & Hr).
    apply (Hnew r Hr). rewrite <- Hkey.
    unfold name_key. simpl. by rewrite Hstrip.
  - by rewrite app_nil_r.
Qed.

(** X15.  With unique ids, after a successful [append_signup] to an
    existing session the confirmed rows number [min capacity active], where
    the new signup counts as active; so they never exceed a non-negative
    capacity, and the new signup gets a place whenever one is free. *)
Theorem append_signup_fills_places (py : str_ops) (new_id now_str : string)
    (st : sheet)
    (sid nm rl : string) (by_ : option string) (s : session) :
  get_session_by_id st sid = Some s →
  NoDup (row_id <$> read_signups (ws_signups st) sid) →
  new_id ∉ row_id <$> read_signups (ws_signups st) sid →
  let res := append_signup py new_id now_str st sid nm rl by_ in
  res.1.1 = true →
  confirmed_count (ws_signups res.2) sid
  = Nat.min (Z.to_nat (capacity s))
            (S (length (read_signups (ws_signups st) sid)))
  ∧ (0 ≤ capacity s →
     Z.of_nat (confirmed_count (ws_signups res.2) sid) ≤ capacity s).
Proof.
  intros Hs Hnd Hfresh res Hok. subst res.
  destruct (append_signup_cases py new_id now_str st sid nm rl by_)
    as [[Hf _]|(_ & _ & _ & _ & Hres)]; [congruence|].
  rewrite Hres. clear Hres Hok.
  set (row := Signup new_id sid (strip py nm) rl
                     (strip py (default "" by_)) now_str "waitlist").
  set (st1 := Sheet (ws_sessions st) (ws_signups st ++ [row])).
  assert (read_signups (ws_signups st1) sid
          = read_signups (ws_signups st) sid ++ [row]) as Hact.
  { simpl. rewrite read_signups_snoc, decide_True; [done|]. by split. }
  assert (get_session_by_id st1 sid = Some s) as Hs1.
  { rewrite <- Hs. by apply get_session_by_id_sessions. }
  assert (NoDup (row_id <$> read_signups (ws_signups st1) sid)) as Hnd1.
  { rewrite Hact, fmap_app. apply NoDup_app. split; [done|].
    split; [|apply NoDup_singleton].
    intros x Hx Hrow. simpl in Hrow.
    apply list_elem_of_singleton in Hrow. by subst x. }
  destruct (recompute_counts st1 sid s Hs1 Hnd1) as [Hc _].
  rewrite Hc, Hact, length_app. simpl.
  replace (length (read_signups (ws_signups st) sid) + 1)%nat
    with (S (length (read_signups (ws_signups st) sid))) by lia.
  split; [done|]. lia.
Qed.

(** ** [auto_fill_from_waitlist] on arbitrary sheets *)

Lemma count_split ws sid :
  (confirmed_count ws sid + waitlist_count ws sid
   = length (read_signups ws sid))%nat.
Proof.
  unfold confirmed_count, waitlist_count.
  rewrite <- length_app. by rewrite filter_app_complement.
Qed.

(** With unique ids the promotions keep the active rows of the session. *)
Lemma promoted_active_length ws sid n :
  NoDup (row_id <$> ws) →
  length (read_signups
            (confirm_all ws (take n (candidates_of (read_signups ws sid))))
            sid)
  = length (read_signups ws sid).
Proof.
  intros Hnd. rewrite confirm_all_candidates by done.
  unfold read_signups at 1. rewrite filter_fmap_same.
  - by rewrite length_fmap.
  - intros x. case_decide as Hx; [|done].
    apply candidates_in_sheet in Hx as (_ & [Hsid Hst] & _).
    unfold active_in. simpl. split; intros _; split; done.
Qed.

Lemma promoted_waitlist_count ws sid n :
  NoDup (row_id <$> ws) →
  let promoted := take n (candidates_of (read_signups ws sid)) in
  (waitlist_count (confirm_all ws promoted) sid + length promoted
   = waitlist_count ws sid)%nat.
Proof.
  intros Hnd promoted.
  pose proof (count_split ws sid).
  pose proof (count_split (confirm_all ws promoted) sid) as Hafter.
  unfold promoted in Hafter.
  rewrite promoted_active_length, promoted_confirmed_count in Hafter by done.
  fold promoted in Hafter. lia.
Qed.

Lemma candidates_length ws sid :
  length (candidates_of (read_signups ws sid)) = waitlist_count ws sid.
Proof. unfold waitlist_count. by rewrite candidates_of_perm. Qed.

Lemma auto_fill_sheet now st sid force :
  ∃ k, (auto_fill_from_waitlist now st sid force).2
       = Sheet (ws_sessions st)
               (confirm_all (ws_signups st)
                  (take k (candidates_of (read_signups (ws_signups st) sid)))).
Proof.
  destruct (get_session_by_id st sid) as [s|] eqn:Hs.
  - destruct (negb force && before_cutoff now (cutoff_utc s)) eqn:Hgate.
    + exists 0%nat. unfold auto_fill_from_waitlist. rewrite Hs, Hgate.
      by destruct st.
    + eexists. by rewrite (auto_fill_found _ _ _ _ _ Hs Hgate).
  - exists 0%nat. unfold auto_fill_from_waitlist. rewrite Hs. by destruct st.
Qed.

(** X16.  [auto_fill_from_waitlist] returns [(0, 0)] and the sheet as it
    was when no session row carries the id, and when the confirmed rows
    already number at least the capacity.  Past the gate with nobody
    waiting it promotes no one and leaves the sheet as it was. *)
Theorem auto_fill_nothing_to_do (now : Z) (st : sheet) (sid : string)
    (force : bool) :
  let res := auto_fill_from_waitlist now st sid force in
  (sid ∉ sess_id <$> ws_sessions st → res = (0, 0, st))
  ∧ (∀ s, get_session_by_id st sid = Some s →
       capacity s ≤ Z.of_nat (confirmed_count (ws_signups st) sid) →
       res = (0, 0, st))
  ∧ (∀ s, get_session_by_id st sid = Some s →
       negb force && before_cutoff now (cutoff_utc s) = false →
       waitlist_count (ws_signups st) sid = 0%nat →
       res.1.1 = 0 ∧ res.2 = st).
Proof.
  intros res. subst res. split; [|split].
  - intros Hsid%get_session_by_id_None.
    unfold auto_fill_from_waitlist. by rewrite Hsid.
  - intros s Hs Hfull. unfold auto_fill_from_waitlist. rewrite Hs.
    destruct (negb force && before_cutoff now (cutoff_utc s)); [done|].
    unfold remaining_of. fold (confirmed_count (ws_signups st) sid).
    by replace (Z.max 0 _) with 0 by lia.
  - intros s Hs Hgate Hwait.
    rewrite (auto_fill_found _ _ _ _ _ Hs Hgate). cbn [fst snd].
    assert (candidates_of (read_signups (ws_signups st) sid) = []) as ->.
    { apply length_zero_iff_nil. by rewrite candidates_length. }
    rewrite take_nil. simpl. split; [done|]. by destruct st.
Qed.

(** X17.  The cutoff gates only an unforced fill of a session whose cutoff
    is set: with an empty cutoff cell, or with [force], the result is that
    of a forced fill at any time. *)
Theorem auto_fill_ungated (now now' : Z) (st : sheet) (sid : string)
    (s : session) (force : bool) :
  get_session_by_id st sid = Some s →
  cutoff_utc s = None ∨ force = true →
  auto_fill_from_waitlist now st sid force
  = auto_fill_from_waitlist now' st sid true.
Proof.
  intros Hs Hopen.
  assert (negb force && before_cutoff now (cutoff_utc s) = false) as Hgate.
  { destruct Hopen as [-> | ->]; [apply andb_false_r|done]. }
  by rewrite (auto_fill_found _ _ _ _ _ Hs Hgate),
    (auto_fill_found now' _ _ _ true Hs eq_refl).
Qed.

(** X18.  With unique ids, a fill that got past the gate leaves nothing for
    a second fill: run again on the resulting sheet, at any time and forced
    or not, [auto_fill_from_waitlist] promotes no one and returns that
    sheet. *)
Theorem auto_fill_second_run_idle (now now' : Z) (st : sheet) (sid : string)
    (s : session) (force force' : bool) :
  get_session_by_id st sid = Some s →
  negb force && before_cutoff now (cutoff_utc s) = false →
  NoDup (row_id <$> ws_signups st) →
  let st1 := (auto_fill_from_waitlist now st sid force).2 in
  (auto_fill_from_waitlist now' st1 sid force').1.1 = 0
  ∧ (auto_fill_from_waitlist now' st1 sid force').2 = st1.
Proof.
  intros Hs Hgate Hnd st1. subst st1.
  rewrite (auto_fill_found _ _ _ _ _ Hs Hgate). cbn [snd].
  set (r := remaining_of (capacity s) (read_signups (ws_signups st) sid)).
  set (cands := candidates_of (read_signups (ws_signups st) sid)).
  set (st1 := Sheet (ws_sessions st)
                    (confirm_all (ws_signups st) (take (Z.to_nat r) cands))).
  assert (get_session_by_id st1 sid = Some s) as Hs1.
  { rewrite <- Hs. by apply get_session_by_id_sessions. }
  destruct (negb force' && before_cutoff now' (cutoff_utc s)) eqn:Hgate'.
  { unfold auto_fill_from_waitlist. by rewrite Hs1, Hgate'. }
  rewrite (auto_fill_found _ _ _ _ _ Hs1 Hgate'). cbn [fst snd].
  pose proof (promoted_confirmed_count (ws_signups st) sid (Z.to_nat r) Hnd)
    as Hc.
  pose proof (promoted_waitlist_count (ws_signups st) sid (Z.to_nat r) Hnd)
    as Hw.
  cbv zeta in Hc, Hw. fold cands in Hc, Hw.
  rewrite length_take in Hc, Hw.
  pose proof (candidates_length (ws_signups st) sid) as Hlen.
  fold cands in Hlen.
  assert (take (Z.to_nat (remaining_of (capacity s)
                            (read_signups (ws_signups st1) sid)))
               (candidates_of (read_signups (ws_signups st1) sid)) = [])
    as ->.
  { destruct (decide (Z.to_nat r ≤ length cands)%nat) as [Hfull|Hfew].
    - replace (Z.to_nat _) with 0%nat; [done|].
      unfold remaining_of.
      fold (confirmed_count (ws_signups st1) sid). unfold st1.
      cbn [ws_signups]. rewrite Hc.
      unfold r, remaining_of in *.
      fold (confirmed_count (ws_signups st) sid) in *. lia.
    - assert (candidates_of (read_signups (ws_signups st1) sid) = []) as ->;
        [|by rewrite take_nil].
      apply length_zero_iff_nil. rewrite candidates_length.
      unfold st1. cbn [ws_signups]. lia. }
  simpl. split; [done|]. by unfold st1.
Qed.

(** X19.  With unique ids, [auto_fill_from_waitlist] never writes the
    sessions and keeps the number of rows; each row either stays as it was
    or is an active unconfirmed row of the session whose status becomes
    confirmed.  So it moves no one down and touches no other session. *)
Theorem auto_fill_frame (now : Z) (st : sheet) (sid : string)
    (force : bool) :
  NoDup (row_id <$> ws_signups st) →
  let res := auto_fill_from_waitlist now st sid force in
  ws_sessions res.2 = ws_sessions st
  ∧ length (ws_signups res.2) = length (ws_signups st)
  ∧ (∀ i r, ws_signups st !! i = Some r →
       ws_signups res.2 !! i = Some r
       ∨ (active_in sid r ∧ ¬ is_confirmed r
          ∧ ws_signups res.2 !! i = Some (set_status "confirmed" r))).
Proof.
  intros Hnd res. subst res.
  destruct (auto_fill_sheet now st sid force) as [k ->].
  cbn [ws_sessions ws_signups]. rewrite confirm_all_candidates by done.
  split; [done|]. split; [apply length_fmap|].
  intros i r Hi. rewrite list_lookup_fmap, Hi. simpl.
  case_decide as Hr; [right|by left].
  apply candidates_in_sheet in Hr as (_ & Hact & Hnc).
  split; [exact Hact|]. split; [exact Hnc|]. done.
Qed.

(** X20.  With unique ids, a fill past the gate promotes
    [min open waiting] rows, where [open] is
    [max 0 (capacity - confirmed)]; the confirmed rows of the session grow
    by that number and the waiting rows shrink by it. *)
Theorem auto_fill_counts (now : Z) (st : sheet) (sid : string) (s : session)
    (force : bool) :
  get_session_by_id st sid = Some s →
  negb force && before_cutoff now (cutoff_utc s) = false →
  NoDup (row_id <$> ws_signups st) →
  let res := auto_fill_from_waitlist now st sid force in
  let confirmed := Z.of_nat (confirmed_count (ws_signups st) sid) in
  let waiting := Z.of_nat (waitlist_count (ws_signups st) sid) in
  res.1.1 = Z.min (Z.max 0 (capacity s - confirmed)) waiting
  ∧ Z.of_nat (confirmed_count (ws_signups res.2) sid) = confirmed + res.1.1
  ∧ Z.of_nat (waitlist_count (ws_signups res.2) sid) = waiting - res.1.1.
Proof.
  intros Hs Hgate Hnd res confirmed waiting. subst res confirmed waiting.
  rewrite (auto_fill_found _ _ _ _ _ Hs Hgate). cbn [fst snd ws_signups].
  set (r := remaining_of (capacity s) (read_signups (ws_signups st) sid)).
  pose proof (promoted_confirmed_count (ws_signups st) sid (Z.to_nat r) Hnd)
    as Hc.
  pose proof (promoted_waitlist_count (ws_signups st) sid (Z.to_nat r) Hnd)
    as Hw.
  cbv zeta in Hc, Hw. rewrite Hc. rewrite length_take in *.
  rewrite candidates_length in *.
  unfold r, remaining_of in *.
  fold (confirmed_count (ws_signups st) sid) in *. lia.
Qed.

(** ** Listing sessions and the default date *)



(** X22.  The default session date lies 0 to 6 days after today and falls
    on a Saturday (weekday 5); on a Saturday it is today. *)
Theorem next_sat_offset_spec (weekday : Z) :
  0 ≤ weekday ≤ 6 →
  0 ≤ next_sat_offset weekday ≤ 6
  ∧ (weekday + next_sat_offset weekday) mod 7 = 5
  ∧ (next_sat_offset weekday = 0 ↔ weekday = 5).
Proof.
  intros Hw. unfold next_sat_offset.
  assert (weekday = 0 ∨ weekday = 1 ∨ weekday = 2 ∨ weekday = 3
          ∨ weekday = 4 ∨ weekday = 5 ∨ weekday = 6) as Hcases by lia.
  repeat (destruct Hcases as [-> | Hcases]); try subst weekday;
    vm_compute; repeat split; intros; congruence.
Qed.

(** ** The further properties on the sample sheets *)

Lemma get_session_by_id_spec_witness :
  get_session_by_id sample_sheet "zz" = None
  ∧ sample_session ∈ ws_sessions sample_sheet
  ∧ sess_id sample_session = "s1".
Proof.
  destruct (get_session_by_id_spec sample_sheet "zz") as [Hnone _].
  destruct (get_session_by_id_spec sample_sheet "s1") as [_ Hsome].
  destruct (Hsome sample_session eq_refl) as (Hin & Hid & _).
  split; [|by split]. apply Hnone. by_computation.
Defined.

Lemma write_session_lookup_witness :
  get_session_by_id
    (write_session "s2" sample_sheet "2024-06-08" 4 2000 "Extra" "").2 "s2"
  = Some (Session "s2" "2024-06-08" 4 (Some 2000) "Extra" "")
  ∧ get_session_by_id
      (write_session "s2" sample_sheet "2024-06-08" 4 2000 "Extra" "").2 "s1"
    = get_session_by_id sample_sheet "s1".
Proof.
  destruct (write_session_lookup "s2" sample_sheet "2024-06-08" 4 2000
              "Extra" "" ltac:(by_computation)) as (_ & Hnew & Hold & _).
  split; [exact Hnew|]. apply Hold. discriminate.
Defined.

Lemma update_writes_first_match_witness :
  update_signup_status twin_rows "b" "removed"
  = [ mk "a" "Ann" "core" "2024-05-01T09:00:00" "confirmed";
      mk "b" "Bob" "outsider" "2024-05-01T11:00:00" "removed";
      mk "b" "Bea" "outsider" "2024-05-01T12:00:00" "waitlist" ].
Proof.
  apply (update_writes_first_match
           [mk "a" "Ann" "core" "2024-05-01T09:00:00" "confirmed"]
           [mk "b" "Bea" "outsider" "2024-05-01T12:00:00" "waitlist"]
           (mk "b" "Bob" "outsider" "2024-05-01T11:00:00" "waitlist")
           "b" "removed"); [by_computation | reflexivity].
Defined.

Lemma removal_drops_one_row_witness :
  read_signups (update_signup_status (ws_signups open_sheet) "a" "removed")
    "s1"
  = filter (λ r, row_id r ≠ "a") (read_signups (ws_signups open_sheet) "s1").
Proof.
  destruct (removal_drops_one_row (ws_signups open_sheet) "a" "s1"
              ltac:(by_computation)) as [H _].
  exact H.
Defined.

Lemma recompute_status_domain_witness :
  status (mk "b" "Eve" "core" "2024-05-01T11:00:00" "confirmed") = "confirmed"
  ∨ status (mk "b" "Eve" "core" "2024-05-01T11:00:00" "confirmed")
    = "waitlist".
Proof.
  apply (recompute_status_domain sample_sheet "s1" sample_session);
    [reflexivity | by_computation].
Defined.

Lemma recompute_respects_ranking_witness :
  core_then_time (mk "b" "Eve" "core" "2024-05-01T11:00:00" "confirmed")
                 (mk "a" "Dan" "outsider" "2024-05-01T10:00:00" "waitlist").
Proof.
  destruct (recompute_respects_ranking sample_sheet "s1" sample_session
              (mk "a" "Dan" "outsider" "2024-05-01T10:00:00" "waitlist")
              (mk "b" "Eve" "core" "2024-05-01T11:00:00" "confirmed")
              eq_refl ltac:(by_computation) ltac:(by_computation)
              ltac:(by_computation) eq_refl ltac:(by_computation))
    as [H _].
  exact H.
Defined.

Lemma recompute_fills_places_witness :
  confirmed_count (ws_signups (apply_priority_logic sample_sheet "s1")) "s1"
  = 2%nat.
Proof.
  destruct (recompute_fills_places sample_sheet "s1" sample_session eq_refl
              ltac:(by_computation)) as [H _].
  exact H.
Defined.

Lemma fill_after_recompute_is_idle_witness :
  (auto_fill_from_waitlist 0 (apply_priority_logic sample_sheet "s1") "s1"
     true).1.1 = 0.
Proof.
  destruct (fill_after_recompute_is_idle 0 sample_sheet "s1" sample_session
              true eq_refl ltac:(by_computation)) as [H _].
  exact H.
Defined.

Lemma append_signup_refusals_witness :
  append_signup ascii_ops "n" "2024-05-02T00:00:00" sample_sheet "s1" "  " "core" None
  = (false, "Name is required.", sample_sheet)
  ∧ append_signup ascii_ops "n" "2024-05-02T00:00:00" sample_sheet "s1" "Gus" "guest"
      None
    = (false, "Invalid role.", sample_sheet).
Proof.
  split.
  - destruct (append_signup_refusals ascii_ops "n" "2024-05-02T00:00:00" sample_sheet
                "s1" "  " "core" None) as (_ & H & _).
    apply H. reflexivity.
  - destruct (append_signup_refusals ascii_ops "n" "2024-05-02T00:00:00" sample_sheet
                "s1" "Gus" "guest" None) as (_ & _ & H).
    apply H; vm_compute; discriminate.
Defined.

Lemma append_signup_adds_one_row_witness :
  length (ws_signups
            (append_signup ascii_ops "n" "2024-05-02T00:00:00" sample_sheet "s1"
               " Gus " "outsider" (Some " Eve")).2) = 5%nat.
Proof.
  destruct (append_signup_adds_one_row ascii_ops "n" "2024-05-02T00:00:00" sample_sheet
              "s1" " Gus " "outsider" (Some " Eve") eq_refl)
    as (_ & H & _).
  exact H.
Defined.

Lemma append_signup_unknown_session_witness :
  append_signup ascii_ops "n" "2024-05-02T00:00:00" sample_sheet "s9" "Gus" "core" None
  = (true, "Added Gus as core.",
     Sheet (ws_sessions sample_sheet)
           (ws_signups sample_sheet
            ++ [Signup "n" "s9" "Gus" "core" "" "2024-05-02T00:00:00"
                       "waitlist"])).
Proof.
  apply (append_signup_unknown_session ascii_ops "n" "2024-05-02T00:00:00" sample_sheet
           "s9" "Gus" "core" None).
  - by_computation.
  - vm_compute. discriminate.
  - left. reflexivity.
  - intros r Hr. vm_compute in Hr. by apply elem_of_nil in Hr.
Defined.

Lemma append_signup_keeps_names_unique_witness :
  names_unique ascii_ops
    (ws_signups
       (append_signup ascii_ops "n" "2024-05-02T00:00:00" sample_sheet "s1" "Gus"
          "core" None).2) "s1".
Proof.
  apply append_signup_keeps_names_unique;
    [exact ascii_strip_strip | by_computation].
Defined.

Lemma append_signup_fills_places_witness :
  confirmed_count
    (ws_signups
       (append_signup ascii_ops "n" "2024-05-02T00:00:00" sample_sheet "s1" "Gus"
          "core" None).2) "s1" = 2%nat.
Proof.
  destruct (append_signup_fills_places ascii_ops "n" "2024-05-02T00:00:00" sample_sheet
              "s1" "Gus" "core" None sample_session eq_refl
              ltac:(by_computation) ltac:(by_computation) eq_refl)
    as [H _].
  exact H.
Defined.

Lemma auto_fill_nothing_to_do_witness :
  auto_fill_from_waitlist 0 open_sheet "zz" true = (0, 0, open_sheet).
Proof.
  destruct (auto_fill_nothing_to_do 0 open_sheet "zz" true) as [H _].
  apply H. by_computation.
Defined.

Lemma auto_fill_ungated_witness :
  auto_fill_from_waitlist 0 open_sheet "s1" true
  = auto_fill_from_waitlist 5000 open_sheet "s1" true.
Proof.
  apply (auto_fill_ungated 0 5000 open_sheet "s1" sample_session true);
    [reflexivity | by right].
Defined.

Lemma auto_fill_second_run_idle_witness :
  (auto_fill_from_waitlist 5000
     (auto_fill_from_waitlist 0 open_sheet "s1" true).2 "s1" false).1.1 = 0.
Proof.
  destruct (auto_fill_second_run_idle 0 5000 open_sheet "s1" sample_session
              true false eq_refl eq_refl ltac:(by_computation)) as [H _].
  exact H.
Defined.

Lemma auto_fill_frame_witness :
  length (ws_signups (auto_fill_from_waitlist 0 open_sheet "s1" true).2)
  = 4%nat.
Proof.
  destruct (auto_fill_frame 0 open_sheet "s1" true ltac:(by_computation))
    as (_ & H & _).
  exact H.
Defined.

Lemma auto_fill_counts_witness :
  (auto_fill_from_waitlist 0 open_sheet "s1" true).1.1 = 1.
Proof.
  destruct (auto_fill_counts 0 open_sheet "s1" sample_session true eq_refl
              eq_refl ltac:(by_computation)) as [H _].
  exact H.
Defined.


Lemma next_sat_offset_spec_witness :
  (6 + next_sat_offset 6) mod 7 = 5.
Proof.
  destruct (next_sat_offset_spec 6 ltac:(lia)) as (_ & H & _).
  exact H.
Defined.
